(** * AlgoForge front end: filter, pagination, signup and statistics logic

    A shallow embedding of the state-handling code of four React components
    (Blog, QuizStart, Signup, Contribute) together with the properties the
    design document states about them.

    JavaScript values are modelled as the code uses them: strings are
    sequences of UTF-16 code units, array indices and counters are
    integers, component state is a record that every handler transforms. *)

From Stdlib Require Import ZArith NArith Ascii String Lia.
From stdpp Require Import base tactics option list relations.

#[local] Open Scope Z_scope.

(** ** The JavaScript built-ins the components call *)

Module JS.

(** A string is a sequence of UTF-16 code units. *)
Definition code_unit := N.
Definition jsstring := list code_unit.

(** Literal strings of the source, written with Rocq string literals. *)
Definition str (s : string) : jsstring :=
  (λ a, N_of_ascii a) <$> list_ascii_of_string s.

(** [t] occurs in [s] at position 0: [s.startsWith(t)]. *)
Fixpoint startsWith (s t : jsstring) : bool :=
  match t, s with
  | [], _ => true
  | _ :: _, [] => false
  | a :: t', b :: s' => (a =? b)%N && startsWith s' t'
  end.

(** [s.includes(t)]: [t] occurs in [s] at some position. *)
Fixpoint includes (s t : jsstring) : bool :=
  startsWith s t ||
  match s with
  | [] => false
  | _ :: s' => includes s' t
  end.

(** [WhiteSpace] and [LineTerminator] code units, the set that
    [String.prototype.trim], [trimStart] and [trimEnd] strip. *)
Definition isWhiteSpace (c : code_unit) : bool :=
  ((9 <=? c) && (c <=? 13) || (c =? 32) || (c =? 160) || (c =? 5760)
   || (8192 <=? c) && (c <=? 8202) || (c =? 8232) || (c =? 8233)
   || (c =? 8239) || (c =? 8287) || (c =? 12288) || (c =? 65279))%N.

Fixpoint trimStart (s : jsstring) : jsstring :=
  match s with
  | [] => []
  | c :: s' => if isWhiteSpace c then trimStart s' else s
  end.

Definition trimEnd (s : jsstring) : jsstring :=
  reverse (trimStart (reverse s)).

Definition trim (s : jsstring) : jsstring := trimEnd (trimStart s).

(** Relative index normalisation of [Array.prototype.slice]: a negative
    index counts from the end, and both ends are clamped to the array. *)
Definition relativeIndex (len i : Z) : Z :=
  if i <? 0 then Z.max (len + i) 0 else Z.min i len.

(** [l.slice(start, end)]; an empty window (final <= k) gives []. *)
Definition slice {A} (l : list A) (start end_ : Z) : list A :=
  let len := Z.of_nat (length l) in
  let k := relativeIndex len start in
  let final := relativeIndex len end_ in
  take (Z.to_nat (final - k)) (drop (Z.to_nat k) l).

(** [Math.ceil(a / b)] on integers with a positive divisor (an array
    length divided by a small constant, where the quotient is exact enough
    for [Math.ceil] to give the integer ceiling). *)
Definition ceilDiv (a b : Z) : Z := - ((- a) / b).

End JS.

(** ** QuizStart.jsx: the topic carousel *)

Module QuizStart.
Import JS.

Record topic := Topic {
  id : jsstring;
  name : jsstring;
  description : jsstring
}.

Definition allTopicsEntry : topic :=
  Topic (str "all") (str "All Topics") (str "Questions from every category.").

(** [const allTopics = [...topics, {id: 'all', ...}]] *)
Definition allTopics (topics : list topic) : list topic :=
  topics ++ [allTopicsEntry].

Definition CARDS_PER_PAGE : Z := 3.

(** The pagination window with the page size as an argument:
    [items.slice(pageIndex * pageSize, (pageIndex + 1) * pageSize)]. *)
Definition page {A} (items : list A) (pageIndex pageSize : Z) : list A :=
  slice items (pageIndex * pageSize) ((pageIndex + 1) * pageSize).

(** [Math.ceil(items.length / pageSize)] *)
Definition totalPages {A} (items : list A) (pageSize : Z) : Z :=
  ceilDiv (Z.of_nat (length items)) pageSize.

(** All pages of a list, in index order. *)
Definition pages {A} (items : list A) (pageSize : Z) : list (list A) :=
  (λ i, page items i pageSize) <$> seqZ 0 (totalPages items pageSize).

Definition totalTopicPages (topics : list topic) : Z :=
  totalPages (allTopics topics) CARDS_PER_PAGE.

Definition displayedTopics (topics : list topic) (topicPage : Z) : list topic :=
  page (allTopics topics) topicPage CARDS_PER_PAGE.

(** [handleTopicNav = (direction) => setTopicPage(p => p + direction)] *)
Definition handleTopicNav (direction : Z) (topicPage : Z) : Z :=
  topicPage + direction.

(** The two carousel buttons.  Each is rendered only when
    [totalTopicPages > 1] and carries a [disabled] attribute. *)
Inductive button := Previous | Next.

Definition rendered (topics : list topic) : bool :=
  1 <? totalTopicPages topics.

Definition disabled (topics : list topic) (topicPage : Z) (b : button) : bool :=
  match b with
  | Previous => topicPage =? 0
  | Next => totalTopicPages topics - 1 <=? topicPage
  end.

Definition direction (b : button) : Z :=
  match b with Previous => -1 | Next => 1 end.

Definition enabled (topics : list topic) (topicPage : Z) (b : button) : bool :=
  rendered topics && negb (disabled topics topicPage b).

(** A click reaches [handleTopicNav] only through an enabled button. *)
Definition click (topics : list topic) (b : button) (topicPage : Z) : Z :=
  if enabled topics topicPage b
  then handleTopicNav (direction b) topicPage
  else topicPage.

(** Navigation steps the interface permits, for a fixed topic list. *)
Inductive navStep (topics : list topic) : Z → Z → Prop :=
| nav_click b p :
    enabled topics p b = true →
    navStep topics p (handleTopicNav (direction b) p).

(** [useState(0)] *)
Definition initialTopicPage : Z := 0.

Definition reachable (topics : list topic) (p : Z) : Prop :=
  rtc (navStep topics) initialTopicPage p.

End QuizStart.

(** ** Blog page (src/unnamed/part_001): post filter and debug counters *)

Module Blog.
Import JS.

(** The fields of a blog post that the filter and the handlers read. *)
Record post := Post {
  id : Z;
  title : jsstring;
  description : jsstring;
  category : jsstring;
  tags : list jsstring;
  featured : bool
}.

#[export] Instance post_eq_dec : EqDecision post.
Proof. solve_decision. Defined.

(** [x || ""] for an argument that may be null or undefined ([None]). *)
Definition orEmpty (x : option jsstring) : jsstring :=
  match x with
  | Some (c :: s) => c :: s
  | Some [] | None => []
  end.

(** [!s] on a string. *)
Definition isEmpty (s : jsstring) : bool :=
  match s with [] => true | _ :: _ => false end.

(** The counters are JavaScript numbers that only ever hold small
    non-negative integers, on which [+ 1] is exact; [pageLoadTime] is a
    duration in milliseconds, or [null]. *)
Record metrics := Metrics {
  searchOperations : Z;
  filterOperations : Z;
  pageLoadTime : option Z;
  interactions : Z
}.

(** What the handlers write to the console through [logDebug]. *)
Inductive logEntry :=
| SearchPerformed (term : jsstring) (termLength : Z) (hasResults : bool)
| CategorySelected (previous new : jsstring) (postCount : Z)
| PostInteraction (postId : Z) (action : jsstring) (postTitle : option jsstring)
| PostsLoaded (postCount : Z) (loadTime : Z) (featuredCount : Z)
| Performance (operation : jsstring)
| NewsletterSubscriptionAttempted.

Record state := State {
  selectedCategory : jsstring;
  searchTerm : jsstring;
  blogPosts : list post;
  isLoading : bool;
  performanceMetrics : metrics;
  console : list logEntry
}.

(** The values of the [useState] calls at mount. *)
Definition initialState : state :=
  {| selectedCategory := str "All";
     searchTerm := [];
     blogPosts := [];
     isLoading := true;
     performanceMetrics :=
       {| searchOperations := 0; filterOperations := 0;
          pageLoadTime := None; interactions := 0 |};
     console := [] |}.

(** Handlers are state transformers that return a value; the ones of
    this component return nothing. *)
Definition M (A : Type) : Type := state → A * state.
Definition ret {A} (a : A) : M A := λ st, (a, st).
Definition bind {A B} (m : M A) (k : A → M B) : M B :=
  λ st, let '(a, st') := m st in k a st'.
Notation "m >> k" := (bind m (λ _, k)) (at level 65, right associativity).

Definition setSearchTerm (term : jsstring) : M unit := λ st,
  (tt, {| selectedCategory := selectedCategory st; searchTerm := term;
          blogPosts := blogPosts st; isLoading := isLoading st;
          performanceMetrics := performanceMetrics st; console := console st |}).

Definition setSelectedCategory (c : jsstring) : M unit := λ st,
  (tt, {| selectedCategory := c; searchTerm := searchTerm st;
          blogPosts := blogPosts st; isLoading := isLoading st;
          performanceMetrics := performanceMetrics st; console := console st |}).

Definition setBlogPosts (ps : list post) : M unit := λ st,
  (tt, {| selectedCategory := selectedCategory st; searchTerm := searchTerm st;
          blogPosts := ps; isLoading := isLoading st;
          performanceMetrics := performanceMetrics st; console := console st |}).

Definition setIsLoading (b : bool) : M unit := λ st,
  (tt, {| selectedCategory := selectedCategory st; searchTerm := searchTerm st;
          blogPosts := blogPosts st; isLoading := b;
          performanceMetrics := performanceMetrics st; console := console st |}).

(** [setPerformanceMetrics((prev) => f(prev))] *)
Definition setPerformanceMetrics (f : metrics → metrics) : M unit := λ st,
  (tt, {| selectedCategory := selectedCategory st; searchTerm := searchTerm st;
          blogPosts := blogPosts st; isLoading := isLoading st;
          performanceMetrics := f (performanceMetrics st); console := console st |}).

Definition logDebug (e : logEntry) : M unit := λ st,
  (tt, {| selectedCategory := selectedCategory st; searchTerm := searchTerm st;
          blogPosts := blogPosts st; isLoading := isLoading st;
          performanceMetrics := performanceMetrics st;
          console := console st ++ [e] |}).

(** [trackPerformance(operation, startTime)] logs the elapsed time of the
    operation; its return value is not used by the handlers. *)
Definition trackPerformance (operation : jsstring) : M unit :=
  logDebug (Performance operation).

(** The [onClick] of the newsletter Subscribe button. *)
Definition newsletterSubscribeClick : M unit :=
  logDebug NewsletterSubscriptionAttempted >>
  setPerformanceMetrics (λ prev,
    {| searchOperations := searchOperations prev;
       filterOperations := filterOperations prev;
       pageLoadTime := pageLoadTime prev;
       interactions := interactions prev + 1 |}).

Section Component.
(** [String.prototype.toLowerCase] is a built-in; the component is
    modelled for any implementation of it. *)
Variable toLowerCase : jsstring → jsstring.

(** The imported [blogPosts.json]. *)
Variable blogPostsData : list post.

Definition pureFilterPosts (posts : list post) (category : jsstring)
    (search : option jsstring) : list post :=
  let searchLower := toLowerCase (orEmpty search) in
  List.filter (λ post,
    let matchesCategory :=
      bool_decide (category = str "All")
      || bool_decide (post.(Blog.category) = category) in
    if negb matchesCategory then false
    else if isEmpty searchLower then true
    else includes (toLowerCase post.(title)) searchLower
         || includes (toLowerCase post.(description)) searchLower
         || existsb (λ tag, includes (toLowerCase tag) searchLower) post.(tags))
    posts.

(** The [useMemo] value rendered by the page. *)
Definition filteredPosts (st : state) : list post :=
  pureFilterPosts (blogPosts st) (selectedCategory st) (Some (searchTerm st)).

Definition handleSearch (term : jsstring) : M unit := λ st,
  (setSearchTerm term >>
   setPerformanceMetrics (λ prev,
     {| searchOperations := searchOperations prev + 1;
        filterOperations := filterOperations prev;
        pageLoadTime := pageLoadTime prev;
        interactions := interactions prev + 1 |}) >>
   let hasResults :=
     0 <? Z.of_nat (length
       (pureFilterPosts (blogPosts st) (selectedCategory st) (Some term))) in
   logDebug (SearchPerformed term (Z.of_nat (length term)) hasResults) >>
   trackPerformance (str "Search Operation")) st.

Definition handleCategorySelect (category : jsstring) : M unit := λ st,
  (let previousCategory := selectedCategory st in
   setSelectedCategory category >>
   setPerformanceMetrics (λ prev,
     {| searchOperations := searchOperations prev;
        filterOperations := filterOperations prev;
        pageLoadTime := pageLoadTime prev;
        interactions := interactions prev + 1 |}) >>
   let count := Z.of_nat (length
     (pureFilterPosts (blogPosts st) category (Some (searchTerm st)))) in
   logDebug (CategorySelected previousCategory category count)) st.

Definition trackPostInteraction (postId : Z) (action : jsstring) : M unit := λ st,
  (logDebug (PostInteraction postId action
     (title <$> List.find (λ p, p.(id) =? postId) (blogPosts st))) >>
   setPerformanceMetrics (λ prev,
     {| searchOperations := searchOperations prev;
        filterOperations := filterOperations prev;
        pageLoadTime := pageLoadTime prev;
        interactions := interactions prev + 1 |})) st.

(** The callback of the 300 ms load timer started at mount. *)
Definition loadTimer (loadDuration : Z) : M unit :=
  setBlogPosts blogPostsData >>
  setIsLoading false >>
  setPerformanceMetrics (λ prev,
    {| searchOperations := searchOperations prev;
       filterOperations := filterOperations prev;
       pageLoadTime := Some loadDuration;
       interactions := interactions prev |}) >>
  logDebug (PostsLoaded (Z.of_nat (length blogPostsData)) loadDuration
              (Z.of_nat (length (List.filter featured blogPostsData)))).

(** The effect with dependencies
    [[blogPosts, selectedCategory, searchTerm, isLoading]]: after a
    render in which one of them changed it counts a filter operation,
    unless the page is still loading. *)
Definition depsChanged (before after : state) : bool :=
  negb (bool_decide (blogPosts before = blogPosts after)
        && bool_decide (selectedCategory before = selectedCategory after)
        && bool_decide (searchTerm before = searchTerm after)
        && bool_decide (isLoading before = isLoading after)).

Definition countFilterOperation : M unit := λ st,
  if isLoading st then (tt, st)
  else setPerformanceMetrics (λ prev,
    {| searchOperations := searchOperations prev;
       filterOperations := filterOperations prev + 1;
       pageLoadTime := pageLoadTime prev;
       interactions := interactions prev |}) st.

Definition filterOperationsEffect (before : state) : M unit := λ after,
  if depsChanged before after then countFilterOperation after
  else (tt, after).

(** The events of a page lifetime and the handler each one runs. *)
Inductive event :=
| SearchInput (term : jsstring)
| CategoryClick (category : jsstring)
| PostOpen (postId : Z) (action : jsstring)
| NewsletterClick
| LoadTimerFired (loadDuration : Z).

Definition handler (ev : event) : M unit :=
  match ev with
  | SearchInput term => handleSearch term
  | CategoryClick c => handleCategorySelect c
  | PostOpen i a => trackPostInteraction i a
  | NewsletterClick => newsletterSubscribeClick
  | LoadTimerFired d => loadTimer d
  end.

(** One event: the handler runs, the page re-renders, the effect runs. *)
Definition dispatch (st : state) (ev : event) : state :=
  snd ((handler ev >> filterOperationsEffect st) st).

Definition run (evs : list event) : state := foldl dispatch initialState evs.

(** *** The Filter Predicate as the design document words it *)

(** [needle] occurs in [hay] starting at some position. *)
Definition substringOf (needle hay : jsstring) : Prop :=
  Exists (λ i, needle `prefix_of` drop i hay) (seq 0 (S (length hay))).

Definition containsIgnoringCase (hay searchText : jsstring) : Prop :=
  substringOf (toLowerCase searchText) (toLowerCase hay).

Definition matches (item : post) (category searchText : jsstring) : Prop :=
  (category = str "All" ∨ item.(Blog.category) = category) ∧
  (searchText = [] ∨
   containsIgnoringCase item.(title) searchText ∨
   containsIgnoringCase item.(description) searchText ∨
   Exists (λ tag, containsIgnoringCase tag searchText) item.(tags)).

#[export] Instance matches_dec item category searchText :
  Decision (matches item category searchText).
Proof. unfold matches, containsIgnoringCase, substringOf. apply _. Defined.

Definition derivedView (items : list post) (category searchText : jsstring) :
    list post :=
  filter (λ item, matches item category searchText) items.

End Component.

(** A lower-casing for the Basic Latin letters, used to run the filter
    on concrete posts. *)
Definition toLowerCaseLatin (s : jsstring) : jsstring :=
  (λ c, if (65 <=? c) && (c <=? 90) then c + 32 else c)%N <$> s.

End Blog.

(** ** Signup.jsx: password rules, submission, password input *)

Module Signup.
Import JS.

(** *** Password validation rules *)

(** The character classes of the four regular expressions, on code units. *)
Inductive charClass := Uppercase | Lowercase | Digit | Special.

Definition inClass (k : charClass) (c : code_unit) : bool :=
  match k with
  | Uppercase => (65 <=? c) && (c <=? 90)                 (* [A-Z] *)
  | Lowercase => (97 <=? c) && (c <=? 122)                (* [a-z] *)
  | Digit => (48 <=? c) && (c <=? 57)                     (* [0-9] *)
  | Special =>                                            (* [!@#$%^&*] *)
      (c =? 33) || (c =? 64) || (c =? 35) || (c =? 36)
      || (c =? 37) || (c =? 94) || (c =? 38) || (c =? 42)
  end%N.

(** [/[...]/.test(s)] for a single character class: some code unit of
    [s] lies in the class. *)
Definition test (k : charClass) (s : jsstring) : bool := existsb (inClass k) s.

Record passwordRules := PasswordRules {
  length : bool;
  uppercase : bool;
  lowercase : bool;
  number : bool;
  specialChar : bool
}.

Definition checkPasswordRules (password : jsstring) : passwordRules :=
  {| length := 8 <=? Z.of_nat (List.length password);
     uppercase := test Uppercase password;
     lowercase := test Lowercase password;
     number := test Digit password;
     specialChar := test Special password |}.

(** The flag that reports on a character class. *)
Definition flag (k : charClass) (r : passwordRules) : bool :=
  match k with
  | Uppercase => uppercase r
  | Lowercase => lowercase r
  | Digit => number r
  | Special => specialChar r
  end.

(** *** Form state *)

Record formData := FormData {
  firstName : jsstring;
  lastName : jsstring;
  email : jsstring;
  password : jsstring;
  confirmPassword : jsstring;
  agreeToTerms : bool
}.

Definition initialFormData : formData :=
  {| firstName := []; lastName := []; email := []; password := [];
     confirmPassword := []; agreeToTerms := false |}.

(** The inputs wired to the generic [handleChange]; all three are text
    inputs, so the handler stores [value] under the input's [name]. *)
Inductive textInput := FirstNameInput | LastNameInput | EmailInput.

Definition handleChange (input : textInput) (value : jsstring) (prev : formData) :
    formData :=
  match input with
  | FirstNameInput =>
      {| firstName := value; lastName := lastName prev; email := email prev;
         password := password prev; confirmPassword := confirmPassword prev;
         agreeToTerms := agreeToTerms prev |}
  | LastNameInput =>
      {| firstName := firstName prev; lastName := value; email := email prev;
         password := password prev; confirmPassword := confirmPassword prev;
         agreeToTerms := agreeToTerms prev |}
  | EmailInput =>
      {| firstName := firstName prev; lastName := lastName prev; email := value;
         password := password prev; confirmPassword := confirmPassword prev;
         agreeToTerms := agreeToTerms prev |}
  end.

Definition handlePasswordChange (value : jsstring) (prev : formData) : formData :=
  let input := value in
  let input := if startsWith input (str " ") then trimStart input else input in
  {| firstName := firstName prev; lastName := lastName prev; email := email prev;
     password := input; confirmPassword := confirmPassword prev;
     agreeToTerms := agreeToTerms prev |}.

Definition handleConfirmPasswordChange (value : jsstring) (prev : formData) :
    formData :=
  {| firstName := firstName prev; lastName := lastName prev; email := email prev;
     password := password prev; confirmPassword := value;
     agreeToTerms := agreeToTerms prev |}.

(** Input events of the form and the handler each is wired to. *)
Inductive inputEvent :=
| TextChange (input : textInput) (value : jsstring)
| PasswordChange (value : jsstring)
| ConfirmPasswordChange (value : jsstring).

Definition onChange (fd : formData) (ev : inputEvent) : formData :=
  match ev with
  | TextChange i v => handleChange i v fd
  | PasswordChange v => handlePasswordChange v fd
  | ConfirmPasswordChange v => handleConfirmPasswordChange v fd
  end.

Definition formAfter (evs : list inputEvent) : formData :=
  foldl onChange initialFormData evs.

(** *** Submission *)

(** What [JSON.stringify(response.user)] gives: a JSON text,
    [undefined] (the user is undefined, a function or a symbol), or an
    exception (a cyclic structure, a BigInt) with its message. *)
Inductive stringified :=
| JsonText (text : jsstring)
| JsonUndefined
| JsonThrows (message : option jsstring).

(** The object a signup resolves with, as [handleSubmit] reads it: [user]
    through [JSON.stringify], [token] through the string conversion that
    [localStorage.setItem] applies to its value. *)
Record signupResponse := SignupResponse {
  user : stringified;
  token : jsstring
}.

(** How [authService.signup(name, email, password)] settles.  It resolves
    with a response object, or with [null] or [undefined], in which case
    reading [response.user] throws a TypeError with the engine's message;
    or it rejects with an error whose [message] may be absent, or with
    [null] or [undefined]. *)
Inductive signupResult :=
| Resolves (response : signupResponse)
| ResolvesNullish (typeErrorMessage : option jsstring)
| Rejects (message : option jsstring)
| RejectsNullish.

Definition authService := jsstring → jsstring → jsstring → signupResult.

(** The view state together with what [handleSubmit] touches outside it:
    local storage (its entries, and the writes it refuses by throwing,
    with the message of the exception), the router, the calls made to the
    backend, and the exceptions that leave the handler uncaught. *)
Record view := View {
  form : formData;
  error : jsstring;
  isLoading : bool;
  localStorage : list (jsstring * jsstring);
  storageThrows : jsstring → jsstring → option (option jsstring);
  navigations : list jsstring;
  signupCalls : list (jsstring * jsstring * jsstring);
  unhandledRejections : nat
}.

Definition setError (msg : jsstring) (v : view) : view :=
  {| form := form v; error := msg; isLoading := isLoading v;
     localStorage := localStorage v; storageThrows := storageThrows v;
     navigations := navigations v; signupCalls := signupCalls v;
     unhandledRejections := unhandledRejections v |}.

Definition setIsLoading (b : bool) (v : view) : view :=
  {| form := form v; error := error v; isLoading := b;
     localStorage := localStorage v; storageThrows := storageThrows v;
     navigations := navigations v; signupCalls := signupCalls v;
     unhandledRejections := unhandledRejections v |}.

(** [localStorage.setItem(key, value)] when the write is accepted: the
    entry for [key] is replaced. *)
Definition setItem (key value : jsstring) (v : view) : view :=
  {| form := form v; error := error v; isLoading := isLoading v;
     localStorage :=
       (key, value) :: List.filter (λ kv, negb (bool_decide (kv.1 = key)))
                         (localStorage v);
     storageThrows := storageThrows v;
     navigations := navigations v; signupCalls := signupCalls v;
     unhandledRejections := unhandledRejections v |}.

Definition navigate (to : jsstring) (v : view) : view :=
  {| form := form v; error := error v; isLoading := isLoading v;
     localStorage := localStorage v; storageThrows := storageThrows v;
     navigations := navigations v ++ [to];
     signupCalls := signupCalls v;
     unhandledRejections := unhandledRejections v |}.

Definition callSignup (name email password : jsstring) (v : view) : view :=
  {| form := form v; error := error v; isLoading := isLoading v;
     localStorage := localStorage v; storageThrows := storageThrows v;
     navigations := navigations v;
     signupCalls := signupCalls v ++ [(name, email, password)];
     unhandledRejections := unhandledRejections v |}.

(** An exception leaves the async handler: an unhandled rejection. *)
Definition rejectUnhandled (v : view) : view :=
  {| form := form v; error := error v; isLoading := isLoading v;
     localStorage := localStorage v; storageThrows := storageThrows v;
     navigations := navigations v; signupCalls := signupCalls v;
     unhandledRejections := S (unhandledRejections v) |}.

(** [error.message || fallback] *)
Definition messageOr (message : option jsstring) (fallback : jsstring) : jsstring :=
  match message with
  | Some (c :: m) => c :: m
  | Some [] | None => fallback
  end.

(** A value thrown into the [catch] block: an error with its [message], or
    [null] or [undefined]. *)
Inductive thrown :=
| Error (message : option jsstring)
| Nullish.

(** How a block completes, with the view it leaves. *)
Inductive completion :=
| Normal (v : view)
| Throw (e : thrown) (v : view).

(** The text [setItem] stores for [JSON.stringify(response.user)]. *)
Definition storedText (s : stringified) : jsstring :=
  match s with
  | JsonText text => text
  | JsonUndefined | JsonThrows _ => str "undefined"
  end.

(** [localStorage.setItem(key, value)] inside the [try] block. *)
Definition trySetItem (key value : jsstring) (v : view) : completion :=
  match storageThrows v key value with
  | Some message => Throw (Error message) v
  | None => Normal (setItem key value v)
  end.

(** The [try] block after the call to [authService.signup]. *)
Definition tryBlock (result : signupResult) (v : view) : completion :=
  match result with
  | Rejects message => Throw (Error message) v
  | RejectsNullish => Throw Nullish v
  | ResolvesNullish typeErrorMessage => Throw (Error typeErrorMessage) v
  | Resolves response =>
      match user response with
      | JsonThrows message => Throw (Error message) v
      | JsonText _ | JsonUndefined =>
          match trySetItem (str "user") (storedText (user response)) v with
          | Throw e v => Throw e v
          | Normal v =>
              match trySetItem (str "token") (token response) v with
              | Throw e v => Throw e v
              | Normal v => Normal (navigate (str "/") v)
              end
          end
      end
  end.

(** [catch (error) { setError(error.message || "Signup failed...") }];
    reading [message] on [null] or [undefined] throws in its turn. *)
Definition catchBlock (e : thrown) (v : view) : completion :=
  match e with
  | Error message =>
      Normal (setError (messageOr message (str "Signup failed. Please try again.")) v)
  | Nullish => Throw (Error None) v
  end.

Definition handleSubmit (signup : authService) (v : view) : view :=
  let fd := form v in
  let v := setError [] v in
  if negb (bool_decide (password fd = confirmPassword fd)) then
    setError (str "Passwords don't match!") v
  else if negb (agreeToTerms fd) then
    setError (str "Please agree to the terms and conditions") v
  else
    let v := setIsLoading true v in
    let name := trim (firstName fd ++ str " " ++ lastName fd) in
    let v := callSignup name (email fd) (password fd) v in
    let attempt :=
      match tryBlock (signup name (email fd) (password fd)) v with
      | Normal v => Normal v
      | Throw e v => catchBlock e v
      end in
    match attempt with
    | Normal v => setIsLoading false v
    | Throw _ v => rejectUnhandled (setIsLoading false v)
    end.

End Signup.

(** ** Contribute page (src/unnamed/part_000): repository statistics *)

Module Contribute.
Import JS.

(** The values a field of the fetched JSON can hold. *)
Inductive jsval :=
| Undefined
| Null
| Bool (b : bool)
| Num (n : Z)
| NaN
| Str (s : jsstring).

Definition truthy (v : jsval) : bool :=
  match v with
  | Undefined | Null | NaN => false
  | Bool b => b
  | Num n => negb (n =? 0)
  | Str s => match s with [] => false | _ :: _ => true end
  end.

(** [a || b] *)
Definition or (a b : jsval) : jsval := if truthy a then a else b.

(** The three fields read from the response body; an absent field reads
    as [Undefined]. *)
Record repoData := RepoData {
  stargazers_count : jsval;
  forks_count : jsval;
  open_issues_count : jsval
}.

Record stats := Stats {
  stars : jsval;
  forks : jsval;
  issues : jsval;
  contributors : jsval
}.

(** How [response.json()] settles: it rejects, or yields [null]
    ([None]), or yields a value whose fields can be read. *)
Inductive jsonOutcome :=
| JsonRejects
| JsonYields (data : option repoData).

(** How the [fetch] settles. *)
Inductive fetchOutcome :=
| FetchRejects
| Responds (ok : bool) (body : jsonOutcome).

Inductive logLine :=
| Log (data : option repoData)          (* console.log(data) *)
| ErrorFetchingRepoStats.               (* console.error("Error fetching repo stats:", error) *)

Record state := State {
  repoStats : stats;
  console : list logLine
}.

(** [useState({stars: 0, forks: 0, issues: 0, contributors: 0})] *)
Definition initialState : state :=
  {| repoStats := {| stars := Num 0; forks := Num 0; issues := Num 0;
                     contributors := Num 0 |};
     console := [] |}.

Definition setRepoStats (s : stats) (st : state) : state :=
  {| repoStats := s; console := console st |}.

Definition consoleWrite (l : logLine) (st : state) : state :=
  {| repoStats := repoStats st; console := console st ++ [l] |}.

(** How a block of statements completes, with the state it leaves. *)
Inductive completion :=
| Normal (st : state)
| Throw (st : state).

(** The body of the [try] block.  A rejected [fetch], a rejected
    [response.json()] and a property read on [null] throw. *)
Definition tryBlock (outcome : fetchOutcome) (st : state) : completion :=
  match outcome with
  | FetchRejects => Throw st
  | Responds false _ => Normal st
  | Responds true JsonRejects => Throw st
  | Responds true (JsonYields None) => Throw (consoleWrite (Log None) st)
  | Responds true (JsonYields (Some data)) =>
      let st := consoleWrite (Log (Some data)) st in
      Normal (setRepoStats
        {| stars := or (stargazers_count data) (Num 0);
           forks := or (forks_count data) (Num 0);
           issues := or (open_issues_count data) (Num 0);
           contributors := Num 0 |} st)
  end.

(** [catch (error) { console.error(...) }] *)
Definition catchBlock (st : state) : completion :=
  Normal (consoleWrite ErrorFetchingRepoStats st).

Definition fetchRepoStats (outcome : fetchOutcome) (st : state) : completion :=
  match tryBlock outcome st with
  | Normal st' => Normal st'
  | Throw st' => catchBlock st'
  end.

(** The outcomes in which no statistics arrive. *)
Definition failed (outcome : fetchOutcome) : bool :=
  match outcome with
  | Responds true (JsonYields (Some _)) => false
  | _ => true
  end.

End Contribute.

(** ** QuizStart.jsx: starting a quiz *)

Module QuizControls.
Import JS QuizStart.

(** The [selectedTopic] and [selectedDifficulty] props: an id, or [null]
    while nothing is chosen. *)
Definition selection := option jsstring.

(** Truthiness of a selection: [null] and the empty string are falsy. *)
Definition chosen (x : selection) : bool :=
  match x with
  | Some (_ :: _) => true
  | Some [] | None => false
  end.

(** The component state besides [topicPage], and the calls it makes to the
    [onStartQuiz] callback. *)
Record state := State {
  timedMode : bool;
  error : jsstring;
  startedQuizzes : list (selection * selection * bool)
}.

Definition initialState : state :=
  {| timedMode := false; error := []; startedQuizzes := [] |}.

Definition setTimedMode (b : bool) (st : state) : state :=
  {| timedMode := b; error := error st; startedQuizzes := startedQuizzes st |}.

Definition setError (msg : jsstring) (st : state) : state :=
  {| timedMode := timedMode st; error := msg; startedQuizzes := startedQuizzes st |}.

Definition onStartQuiz (topic difficulty : selection) (timed : bool) (st : state) :
    state :=
  {| timedMode := timedMode st; error := error st;
     startedQuizzes := startedQuizzes st ++ [(topic, difficulty, timed)] |}.

Definition handleStartQuiz (selectedTopic selectedDifficulty : selection)
    (st : state) : state :=
  if negb (chosen selectedTopic) || negb (chosen selectedDifficulty) then
    setError (str "Please choose both a topic and difficulty.") st
  else
    let st' := setError [] st in
    onStartQuiz selectedTopic selectedDifficulty (timedMode st) st'.

(** The [disabled] attribute of the Start Quiz button. *)
Definition startDisabled (selectedTopic selectedDifficulty : selection) : bool :=
  negb (chosen selectedTopic) || negb (chosen selectedDifficulty).

(** A call of [onStartQuiz] that carries a topic and a difficulty. *)
Definition bothChosen (call : selection * selection * bool) : Prop :=
  chosen call.1.1 = true ∧ chosen call.1.2 = true.

(** A click on the Start Quiz button. *)
Definition clickStart (selectedTopic selectedDifficulty : selection) (st : state) :
    state :=
  if startDisabled selectedTopic selectedDifficulty then st
  else handleStartQuiz selectedTopic selectedDifficulty st.

(** The topic named in the "Get ready for ..." line:
    [selectedTopic === "all" ? "All Topics"
       : topics.find((t) => t.id === selectedTopic)?.name]. *)
Definition quizInfoTopic (topics : list topic) (selectedTopic : jsstring) :
    option jsstring :=
  if bool_decide (selectedTopic = str "all") then Some (str "All Topics")
  else name <$> List.find (λ t, bool_decide (t.(id) = selectedTopic)) topics.

End QuizControls.

(** ** Blog page: what the markup derives from the state *)

Module BlogView.
Import JS Blog.

(** The number on a category button:
    [category === "All" ? blogPosts.length
       : blogPosts.filter((post) => post.category === category).length]. *)
Definition countBadge (blogPosts : list post) (category : jsstring) : Z :=
  if bool_decide (category = str "All") then Z.of_nat (length blogPosts)
  else Z.of_nat (length
         (List.filter (λ post, bool_decide (post.(Blog.category) = category))
            blogPosts)).

(** [blogPosts.filter((post) => post.featured)] *)
Definition featuredPosts (st : state) : list post :=
  List.filter featured (blogPosts st).

(** [!isLoading && blogPosts.some((p) => p.featured)] *)
Definition featuredSectionShown (st : state) : bool :=
  negb (isLoading st) && existsb featured (blogPosts st).

(** A keyboard event: its [key], and whether [preventDefault] was called. *)
Record keyEvent := KeyEvent {
  key : jsstring;
  defaultPrevented : bool
}.

Definition preventDefault (e : keyEvent) : keyEvent :=
  {| key := key e; defaultPrevented := true |}.

Section Handlers.
Variable toLowerCase : jsstring → jsstring.

(** [handleKeyDown(event, action, value)]; the event is returned as the
    handler leaves it. *)
Definition handleKeyDown (event : keyEvent) (action value : jsstring) : M keyEvent :=
  λ st,
  if bool_decide (key event = str "Enter") || bool_decide (key event = str " ") then
    let event := preventDefault event in
    if bool_decide (action = str "category") then
      (event, snd (handleCategorySelect toLowerCase value st))
    else (event, st)
  else (event, st).

End Handlers.

Definition bool_to_Z (b : bool) : Z := if b then 1 else 0.

(** Events that the handlers count as a search, and as an interaction
    (a search, a category click, a post opening, a Subscribe click). *)
Definition isSearch (ev : event) : bool :=
  match ev with SearchInput _ => true | _ => false end.

Definition isInteraction (ev : event) : bool :=
  match ev with LoadTimerFired _ => false | _ => true end.

Definition isLoadTimer (ev : event) : bool :=
  match ev with LoadTimerFired _ => true | _ => false end.

End BlogView.

(** ** Signup.jsx: derived flags, stored session, Google sign-up *)

Module SignupView.
Import JS Signup.

(** [Object.values(passwordChecks).every(Boolean)] *)
Definition isPasswordValid (fd : formData) : bool :=
  let passwordChecks := checkPasswordRules (password fd) in
  forallb (λ b : bool, b)
    [Signup.length passwordChecks; uppercase passwordChecks;
     lowercase passwordChecks; number passwordChecks; specialChar passwordChecks].

(** Truthiness of
    [formData.confirmPassword && formData.password === formData.confirmPassword]. *)
Definition doPasswordsMatch (fd : formData) : bool :=
  match confirmPassword fd with
  | [] => false
  | _ :: _ => bool_decide (password fd = confirmPassword fd)
  end.

(** The view a completion leaves. *)
Definition viewOf (c : completion) : view :=
  match c with Normal v | Throw _ v => v end.

(** The [finally] block of [handleSubmit], after its [try] and [catch]
    blocks. *)
Definition finish (c : completion) : view :=
  match c with
  | Normal v => setIsLoading false v
  | Throw _ v => rejectUnhandled (setIsLoading false v)
  end.

(** [localStorage.getItem(key)] *)
Definition getItem (key : jsstring) (v : view) : option jsstring :=
  snd <$> List.find (λ kv, bool_decide (kv.1 = key)) (localStorage v).

(** *** Google sign-up *)

(** What the Google handlers touch: the alerts shown, the console, and
    the calls made to [authService.googleLogin]. *)
Inductive consoleLine :=
| GoogleUserData (decoded : jsstring)
| BackendSignupSuccess (response : jsstring)
| GoogleSignupFailed
| GoogleLoginFailed.

Record page := Page {
  alerts : list jsstring;
  console : list consoleLine;
  googleLoginCalls : list jsstring
}.

Definition alert (msg : jsstring) (p : page) : page :=
  {| alerts := alerts p ++ [msg]; console := console p;
     googleLoginCalls := googleLoginCalls p |}.

Definition consoleWrite (l : consoleLine) (p : page) : page :=
  {| alerts := alerts p; console := console p ++ [l];
     googleLoginCalls := googleLoginCalls p |}.

Definition callGoogleLogin (credential : jsstring) (p : page) : page :=
  {| alerts := alerts p; console := console p;
     googleLoginCalls := googleLoginCalls p ++ [credential] |}.

Section Google.
(** [jwtDecode(token)]: the decoded payload, or [None] when it throws. *)
Variable jwtDecode : jsstring → option jsstring.
(** [authService.googleLogin(credential)]: the response, or [None] when
    the promise rejects. *)
Variable googleLogin : jsstring → option jsstring.

Definition handleGoogleSuccess (credential : jsstring) (p : page) : page :=
  let failed p :=
    alert (str "Google signup failed. Please try again.")
      (consoleWrite GoogleSignupFailed p) in
  match jwtDecode credential with
  | None => failed p
  | Some decoded =>
      let p := consoleWrite (GoogleUserData decoded) p in
      let p := callGoogleLogin credential p in
      match googleLogin credential with
      | None => failed p
      | Some response =>
          let p := consoleWrite (BackendSignupSuccess response) p in
          alert (str "Signed up successfully with Google!") p
      end
  end.

End Google.

Definition handleGoogleError (p : page) : page :=
  alert (str "Google login failed. Try again.") (consoleWrite GoogleLoginFailed p).

End SignupView.

(** ** Contribute page: what can be displayed *)

Module ContributeView.
Import Contribute.

(** A counter value that renders as a number or other visible text: the
    default 0, or any truthy value. *)
Definition displayable (v : jsval) : bool :=
  match v with
  | Num _ => true
  | _ => truthy v
  end.

(** The outcomes in which the [try] block throws. *)
Definition throws (outcome : fetchOutcome) : bool :=
  match outcome with
  | FetchRejects => true
  | Responds true JsonRejects => true
  | Responds true (JsonYields None) => true
  | _ => false
  end.

End ContributeView.

(** ** Orderings on the counters, and sample data *)

(** Every counter of [a] is at most the one of [b]. *)
Definition countersLe (a b : Blog.metrics) : Prop :=
  Blog.searchOperations a ≤ Blog.searchOperations b ∧
  Blog.filterOperations a ≤ Blog.filterOperations b ∧
  Blog.interactions a ≤ Blog.interactions b.

Definition countersNonneg (m : Blog.metrics) : Prop :=
  0 ≤ Blog.searchOperations m ∧ 0 ≤ Blog.filterOperations m ∧ 0 ≤ Blog.interactions m.

(** A small collection of posts on which the filter is run. *)
Definition samplePosts : list Blog.post :=
  [ Blog.Post 1 (JS.str "Merge Sort Explained") (JS.str "Divide and conquer")
      (JS.str "Sorting") [JS.str "sorting"; JS.str "Recursion"] true;
    Blog.Post 2 (JS.str "Graph Basics") (JS.str "Nodes and edges")
      (JS.str "Graphs") [JS.str "BFS"] false;
    Blog.Post 3 (JS.str "Quick notes") (JS.str "About MERGE steps")
      (JS.str "Sorting") [] false ].

(** A filled form on the signup route, and two backends. *)
Definition sampleView (confirm : JS.jsstring) (agree : bool) : Signup.view :=
  {| Signup.form :=
       {| Signup.firstName := JS.str "Ada"; Signup.lastName := JS.str "Lovelace";
          Signup.email := JS.str "ada@example.org";
          Signup.password := JS.str "Abc1234!";
          Signup.confirmPassword := confirm; Signup.agreeToTerms := agree |};
     Signup.error := []; Signup.isLoading := false; Signup.localStorage := [];
     Signup.storageThrows := λ _ _, None;
     Signup.navigations := []; Signup.signupCalls := [];
     Signup.unhandledRejections := 0 |}.

Definition emailInUse : Signup.authService :=
  λ _ _ _, Signup.Rejects (Some (JS.str "Email already in use")).

(** The user is rendered by [JSON.stringify] as a JSON string: the name
    between double quotes (code unit 34). *)
Definition accepts : Signup.authService :=
  λ name _ _,
    Signup.Resolves
      {| Signup.user := Signup.JsonText (34%N :: name ++ [34%N]);
         Signup.token := JS.str "token-1" |}.

(** * Properties *)

(** ** Built-ins *)

Section BuiltinFacts.
Import JS.

Lemma startsWith_prefix (s t : jsstring) :
  startsWith s t = true ↔ t `prefix_of` s.
Proof.
  revert s; induction t as [|a t IH]; intros [|b s]; simpl.
  - split; [intros _; apply prefix_nil | done].
  - split; [intros _; apply prefix_nil | done].
  - split; [done | intros H; by apply prefix_nil_not in H].
  - rewrite andb_true_iff, N.eqb_eq, IH. split.
    + intros [-> Hp]. by apply prefix_cons.
    + intros Hp. split.
      * by apply prefix_cons_inv_1 in Hp.
      * by apply prefix_cons_inv_2 in Hp.
Qed.

Lemma includes_occurs (s t : jsstring) :
  includes s t = true ↔ ∃ i, (i ≤ length s)%nat ∧ t `prefix_of` drop i s.
Proof.
  induction s as [|b s IH].
  - cbn [includes]. rewrite orb_false_r, startsWith_prefix. split.
    + intros H. exists 0%nat. split; [simpl; lia | done].
    + intros (i & _ & H). by rewrite drop_nil in H.
  - cbn [includes]. rewrite orb_true_iff, startsWith_prefix, IH. split.
    + intros [H | (i & Hi & H)].
      * exists 0%nat. split; [lia | done].
      * exists (S i). split; [simpl; lia | done].
    + intros ([|i] & Hi & H).
      * by left.
      * right. exists i. split; [simpl in Hi; lia | done].
Qed.

Lemma trimStart_head (s : jsstring) :
  match trimStart s with
  | [] => True
  | c :: _ => isWhiteSpace c = false
  end.
Proof.
  induction s as [|c s IH]; simpl; [done |].
  destruct (isWhiteSpace c) eqn:Hc; [done | by rewrite Hc].
Qed.

Lemma ceilDiv_bounds (a b : Z) :
  0 < b → b * (ceilDiv a b - 1) < a ≤ b * ceilDiv a b.
Proof.
  intros Hb. unfold ceilDiv.
  pose proof (Z.mul_div_le (- a) b Hb).
  pose proof (Z.mul_succ_div_gt (- a) b Hb).
  lia.
Qed.

Lemma slice_window {A} (l : list A) (a b : Z) :
  0 ≤ a ≤ b →
  slice l a b = take (Z.to_nat (b - a)) (drop (Z.to_nat a) l).
Proof.
  intros Hab. unfold slice, relativeIndex.
  destruct (Z.ltb_spec a 0), (Z.ltb_spec b 0); try lia.
  destruct (Z.le_gt_cases (Z.of_nat (length l)) a) as [Hge | Hlt].
  - rewrite !(drop_ge l) by lia. by rewrite !take_nil.
  - rewrite (Z.min_l a) by lia.
    destruct (Z.le_gt_cases b (Z.of_nat (length l))).
    + by rewrite Z.min_l by lia.
    + rewrite Z.min_r by lia.
      rewrite !take_ge; [done | |]; rewrite length_drop; lia.
Qed.

End BuiltinFacts.

(** ** Pagination window (QuizStart) *)

Section PaginationFacts.
Import JS QuizStart.
Context {A : Type}.
Implicit Types (items : list A) (i n : Z).

Lemma page_window items i n :
  0 < n → 0 ≤ i →
  page items i n = take (Z.to_nat n) (drop (Z.to_nat i * Z.to_nat n) items).
Proof.
  intros Hn Hi. unfold page. rewrite slice_window by nia.
  f_equal; [f_equal; lia | f_equal; nia].
Qed.

Lemma page_length items i n :
  0 < n → 0 ≤ i → (length (page items i n) ≤ Z.to_nat n)%nat.
Proof. intros Hn Hi. rewrite page_window by done. rewrite length_take. lia. Qed.

Lemma page_out_of_range items i n :
  0 < n → totalPages items n ≤ i → page items i n = [].
Proof.
  intros Hn Hi. unfold totalPages in Hi.
  pose proof (ceilDiv_bounds (Z.of_nat (length items)) n Hn) as [_ Hle].
  assert (0 ≤ i) by nia.
  rewrite page_window by done.
  rewrite drop_ge; [apply take_nil | nia].
Qed.

Lemma totalPages_nonneg items n : 0 < n → 0 ≤ totalPages items n.
Proof.
  intros Hn. unfold totalPages.
  pose proof (ceilDiv_bounds (Z.of_nat (length items)) n Hn). nia.
Qed.

(** The first [t] windows of width [k] make up the first [t * k] items. *)
Lemma windows_take items (k t : nat) :
  concat ((λ j : nat, take k (drop (j * k) items)) <$> seq 0 t)
  = take (t * k) items.
Proof.
  induction t as [|t IH]; [done |].
  rewrite seq_S, fmap_app, concat_app, IH. simpl.
  rewrite app_nil_r, take_take_drop. f_equal. lia.
Qed.

Lemma pages_windows items n :
  0 < n →
  pages items n
  = (λ j : nat, take (Z.to_nat n) (drop (j * Z.to_nat n) items))
      <$> seq 0 (Z.to_nat (totalPages items n)).
Proof.
  intros Hn. unfold pages, seqZ. rewrite <- list_fmap_compose.
  apply list_fmap_ext. intros _ j _. simpl.
  rewrite page_window by lia. do 3 f_equal. lia.
Qed.

Lemma concat_pages items n : 0 < n → concat (pages items n) = items.
Proof.
  intros Hn. rewrite pages_windows, windows_take by done.
  apply take_ge.
  pose proof (ceilDiv_bounds (Z.of_nat (length items)) n Hn) as [_ Hle].
  pose proof (totalPages_nonneg items n Hn).
  unfold totalPages in *. nia.
Qed.

End PaginationFacts.

Section CarouselFacts.
Import JS QuizStart.
Implicit Types (topics : list topic) (p : Z).

Lemma totalTopicPages_pos topics : 1 ≤ totalTopicPages topics.
Proof.
  unfold totalTopicPages, totalPages, allTopics, CARDS_PER_PAGE.
  rewrite length_app. simpl.
  pose proof (ceilDiv_bounds (Z.of_nat (length topics + 1)) 3). lia.
Qed.

Lemma enabled_Previous topics p :
  enabled topics p Previous = true ↔ 1 < totalTopicPages topics ∧ p ≠ 0.
Proof.
  unfold enabled, rendered, disabled.
  rewrite andb_true_iff, negb_true_iff, Z.ltb_lt, Z.eqb_neq. done.
Qed.

Lemma enabled_Next topics p :
  enabled topics p Next = true ↔
  1 < totalTopicPages topics ∧ p < totalTopicPages topics - 1.
Proof.
  unfold enabled, rendered, disabled.
  rewrite andb_true_iff, negb_true_iff, Z.ltb_lt, Z.leb_gt. done.
Qed.

Lemma navStep_in_range topics p q :
  navStep topics p q →
  0 ≤ p < totalTopicPages topics → 0 ≤ q < totalTopicPages topics.
Proof.
  intros [[] p' Hen] Hp; unfold handleTopicNav, direction.
  - apply enabled_Previous in Hen. lia.
  - apply enabled_Next in Hen. lia.
Qed.

Lemma click_in_range topics b p :
  0 ≤ p < totalTopicPages topics → 0 ≤ click topics b p < totalTopicPages topics.
Proof.
  intros Hp. unfold click. destruct (enabled topics p b) eqn:Hen; [| done].
  by apply (navStep_in_range topics p), Hp; constructor.
Qed.

End CarouselFacts.

(** C2 (as stated, refuted): an out-of-range page index is not clamped to
    the last valid page.  With 7 items and page size 3 there are 3 pages,
    the last valid page holds the seventh item, and page index 5 yields the
    empty list instead.  Nor is [handleTopicNav] a no-op at a boundary:
    called at the last page it moves the index out of range. *)
Lemma out_of_range_page_is_not_last_page :
  let items := [1; 2; 3; 4; 5; 6; 7] in
  let lastPage := QuizStart.totalPages items 3 - 1 in
  QuizStart.totalPages items 3 = 3 ∧
  QuizStart.page items lastPage 3 = [7] ∧
  QuizStart.page items 5 3 = [] ∧
  QuizStart.page items 5 3 ≠ QuizStart.page items lastPage 3 ∧
  QuizStart.handleTopicNav 1 lastPage = QuizStart.totalPages items 3.
Proof. repeat split; try reflexivity. discriminate. Qed.

(** C2 (amended): for every item list and page size n > 0, a page index at
    or past the page count yields the empty page (nothing is thrown and
    nothing is clamped); [handleTopicNav] adds the direction to the index
    unconditionally, and the boundaries are kept by the carousel buttons:
    a click on Next at the last page or on Previous at the first page
    leaves the index unchanged, and a click from an in-range index gives
    an in-range index. *)
Theorem out_of_range_page_empty_and_clicks_guarded
    {A} (items : list A) (n i : Z) (topics : list QuizStart.topic)
    (b : QuizStart.button) (p d : Z) :
  0 < n →
  0 ≤ p < QuizStart.totalTopicPages topics →
  (QuizStart.totalPages items n ≤ i → QuizStart.page items i n = []) ∧
  QuizStart.handleTopicNav d p = p + d ∧
  QuizStart.click topics QuizStart.Next (QuizStart.totalTopicPages topics - 1)
    = QuizStart.totalTopicPages topics - 1 ∧
  QuizStart.click topics QuizStart.Previous 0 = 0 ∧
  0 ≤ QuizStart.click topics b p < QuizStart.totalTopicPages topics.
Proof.
  intros Hn Hp. split; [| split; [| split; [| split]]].
  - intros Hi. by apply page_out_of_range.
  - done.
  - unfold QuizStart.click.
    destruct (QuizStart.enabled _ _ _) eqn:Hen; [| done].
    apply enabled_Next in Hen. lia.
  - unfold QuizStart.click.
    destruct (QuizStart.enabled _ _ _) eqn:Hen; [| done].
    apply enabled_Previous in Hen. lia.
  - by apply click_in_range.
Qed.

Lemma out_of_range_page_empty_and_clicks_guarded_witness :
  let items := [1; 2; 3; 4; 5; 6; 7] in
  let topics := replicate 6 QuizStart.allTopicsEntry in
  (QuizStart.totalPages items 3 ≤ 5 → QuizStart.page items 5 3 = []) ∧
  QuizStart.handleTopicNav 1 2 = 2 + 1 ∧
  QuizStart.click topics QuizStart.Next (QuizStart.totalTopicPages topics - 1)
    = QuizStart.totalTopicPages topics - 1 ∧
  QuizStart.click topics QuizStart.Previous 0 = 0 ∧
  0 ≤ QuizStart.click topics QuizStart.Next 2 < QuizStart.totalTopicPages topics.
Proof.
  apply (out_of_range_page_empty_and_clicks_guarded
           [1; 2; 3; 4; 5; 6; 7] 3 5 (replicate 6 QuizStart.allTopicsEntry)
           QuizStart.Next 2 1).
  - lia.
  - vm_compute. split; [discriminate | reflexivity].
Defined.

(** C3: for every item list, page size n > 0 and in-range page index i, the
    pagination window holds at most n items, and the pages 0 ..
    ceil(totalItems/n)-1 concatenated in index order are the original list
    (no item duplicated, none omitted); a list of 7 items with page size 3
    has pages of sizes 3, 3 and 1. *)
Theorem pages_partition_items {A} (items : list A) (n : Z) :
  0 < n →
  (∀ i, 0 ≤ i < QuizStart.totalPages items n →
        (length (QuizStart.page items i n) ≤ Z.to_nat n)%nat) ∧
  concat (QuizStart.pages items n) = items ∧
  (length items = 7%nat → length <$> QuizStart.pages items 3 = [3; 3; 1]%nat).
Proof.
  intros Hn. split; [| split].
  - intros i [Hi _]. by apply page_length.
  - by apply concat_pages.
  - intros Hlen.
    do 8 (try destruct items as [|? items]; try discriminate Hlen).
    reflexivity.
Qed.

Lemma pages_partition_items_witness :
  let items := [10; 20; 30; 40; 50; 60; 70] in
  (∀ i, 0 ≤ i < QuizStart.totalPages items 3 →
        (length (QuizStart.page items i 3) ≤ Z.to_nat 3)%nat) ∧
  concat (QuizStart.pages items 3) = items ∧
  (length items = 7%nat → length <$> QuizStart.pages items 3 = [3; 3; 1]%nat).
Proof. apply (pages_partition_items [10; 20; 30; 40; 50; 60; 70] 3). lia. Defined.

(** C4: for a fixed topic collection, every topic page reachable from the
    initial page 0 by the navigation steps the interface permits satisfies
    0 ≤ topicPage < ceil(totalItems / pageSize). *)
Theorem topicPage_invariant (topics : list QuizStart.topic) (p : Z) :
  QuizStart.reachable topics p → 0 ≤ p < QuizStart.totalTopicPages topics.
Proof.
  unfold QuizStart.reachable. revert p. apply rtc_ind_r.
  - pose proof (totalTopicPages_pos topics).
    unfold QuizStart.initialTopicPage. lia.
  - intros p q _ Hstep IH. by eapply navStep_in_range.
Qed.

Lemma topicPage_invariant_witness :
  let topics := replicate 3 QuizStart.allTopicsEntry in
  0 ≤ 1 < QuizStart.totalTopicPages topics.
Proof.
  apply (topicPage_invariant (replicate 3 QuizStart.allTopicsEntry) 1).
  apply rtc_once.
  change 1 with (QuizStart.handleTopicNav (QuizStart.direction QuizStart.Next) 0).
  constructor. reflexivity.
Defined.

(** ** Derived view (Blog) *)

Section FilterFacts.
Import JS Blog.
Variable toLowerCase : jsstring → jsstring.

Lemma includes_substringOf (s t : jsstring) :
  includes s t = true ↔ substringOf t s.
Proof.
  rewrite includes_occurs. unfold substringOf. rewrite Exists_exists.
  split; intros (i & Hi & Hp); exists i.
  - split; [apply elem_of_seq; lia | done].
  - apply elem_of_seq in Hi. split; [lia | done].
Qed.

(** The prefix-at-some-position wording agrees with the usual one. *)
Lemma substringOf_app (needle hay : jsstring) :
  substringOf needle hay ↔ ∃ before after, hay = before ++ needle ++ after.
Proof.
  rewrite <- includes_substringOf, includes_occurs. split.
  - intros (i & _ & after & Hd). exists (take i hay), after.
    by rewrite <- Hd, take_drop.
  - intros (before & after & ->). exists (length before). split.
    + rewrite length_app. lia.
    + rewrite drop_app_length. by exists after.
Qed.

Lemma existsb_Exists {A} (f : A → bool) (P : A → Prop) (l : list A) :
  (∀ x, f x = true ↔ P x) → existsb f l = true ↔ Exists P l.
Proof.
  intros Hf. induction l as [|x l IH]; simpl.
  - split; [done | by intros H%Exists_nil].
  - by rewrite orb_true_iff, Exists_cons, Hf, IH.
Qed.

Lemma filter_bool_decide {A} (f : A → bool) (P : A → Prop)
    `{!∀ x, Decision (P x)} (l : list A) :
  (∀ x, f x = true ↔ P x) → List.filter f l = filter P l.
Proof.
  intros Hf. induction l as [|x l IH]; [done |].
  simpl. rewrite filter_cons, IH.
  destruct (f x) eqn:Hx, (decide (P x)) as [HP | HP]; try done.
  - by apply Hf in Hx.
  - apply Hf in HP. congruence.
Qed.

Lemma isEmpty_nil (s : jsstring) : isEmpty s = true ↔ s = [].
Proof. by destruct s. Qed.

Lemma orEmpty_Some (s : jsstring) : orEmpty (Some s) = s.
Proof. by destruct s. Qed.

Lemma pureFilterPosts_derivedView posts category search :
  toLowerCase [] = [] →
  pureFilterPosts toLowerCase posts category search
  = derivedView toLowerCase posts category (orEmpty search).
Proof.
  intros Hnil. unfold pureFilterPosts, derivedView.
  apply filter_bool_decide. intros item. unfold matches, containsIgnoringCase.
  set (searchText := orEmpty search).
  destruct (decide (category = str "All" ∨ Blog.category item = category))
    as [Hc | Hc].
  - assert (bool_decide (category = str "All")
            || bool_decide (Blog.category item = category) = true) as ->.
    { rewrite orb_true_iff, !bool_decide_eq_true. done. }
    simpl. destruct (isEmpty (toLowerCase searchText)) eqn:He.
    + apply isEmpty_nil in He. split; [intros _ | done].
      split; [done |]. right; left. rewrite He.
      apply includes_substringOf. by destruct (toLowerCase (title item)).
    + rewrite !orb_true_iff, !includes_substringOf.
      rewrite (existsb_Exists _
        (λ tag, substringOf (toLowerCase searchText) (toLowerCase tag)))
        by (intros tag; apply includes_substringOf).
      split.
      * intros H. split; [done |]. right. tauto.
      * intros [_ [-> | H]]; [| tauto].
        rewrite Hnil in He. done.
  - assert (bool_decide (category = str "All")
            || bool_decide (Blog.category item = category) = false) as ->.
    { apply not_true_is_false.
      rewrite orb_true_iff, !bool_decide_eq_true. done. }
    simpl. split; [done | by intros [? _]].
Qed.

End FilterFacts.

(** C1: for every list of posts, category and search text,
    [pureFilterPosts] is the Derived View: it keeps an item iff (the
    category is "All" or equals the item's category) and (the search text
    is empty or, compared in lower case, occurs in the item's title,
    description or some tag), and the kept items stand in their original
    relative order. *)
Theorem pureFilterPosts_derived_view
    (toLowerCase : JS.jsstring → JS.jsstring) (posts : list Blog.post)
    (category : JS.jsstring) (search : option JS.jsstring) :
  toLowerCase [] = [] →
  let view := Blog.pureFilterPosts toLowerCase posts category search in
  view = filter (λ item, Blog.matches toLowerCase item category (Blog.orEmpty search))
           posts ∧
  (∀ item, item ∈ view ↔
     item ∈ posts ∧ Blog.matches toLowerCase item category (Blog.orEmpty search)) ∧
  view `sublist_of` posts ∧
  (∀ text item,
     search = Some text → text ≠ [] → item ∈ view →
     Blog.containsIgnoringCase toLowerCase item.(Blog.title) text ∨
     Blog.containsIgnoringCase toLowerCase item.(Blog.description) text ∨
     Exists (λ tag, Blog.containsIgnoringCase toLowerCase tag text) item.(Blog.tags)).
Proof.
  intros Hnil view. subst view.
  rewrite pureFilterPosts_derivedView by done. unfold Blog.derivedView.
  split; [done | split; [| split]].
  - intros item. rewrite list_elem_of_filter. tauto.
  - apply sublist_filter.
  - intros text item -> Htext [[_ Hm] _]%list_elem_of_filter.
    rewrite orEmpty_Some in Hm. by destruct Hm.
Qed.

Example pureFilterPosts_sample :
  Blog.id <$> Blog.pureFilterPosts Blog.toLowerCaseLatin samplePosts
                (JS.str "Sorting") (Some (JS.str "merge")) = [1; 3].
Proof. reflexivity. Qed.

Example pureFilterPosts_sample_tag :
  Blog.id <$> Blog.pureFilterPosts Blog.toLowerCaseLatin samplePosts
                (JS.str "All") (Some (JS.str "bfs")) = [2].
Proof. reflexivity. Qed.

Lemma pureFilterPosts_derived_view_witness :
  let view := Blog.pureFilterPosts Blog.toLowerCaseLatin samplePosts
                (JS.str "Sorting") (Some (JS.str "merge")) in
  view = filter (λ item, Blog.matches Blog.toLowerCaseLatin item (JS.str "Sorting")
                           (Blog.orEmpty (Some (JS.str "merge")))) samplePosts ∧
  (∀ item, item ∈ view ↔
     item ∈ samplePosts ∧
     Blog.matches Blog.toLowerCaseLatin item (JS.str "Sorting")
       (Blog.orEmpty (Some (JS.str "merge")))) ∧
  view `sublist_of` samplePosts ∧
  (∀ text item,
     Some (JS.str "merge") = Some text → text ≠ [] → item ∈ view →
     Blog.containsIgnoringCase Blog.toLowerCaseLatin item.(Blog.title) text ∨
     Blog.containsIgnoringCase Blog.toLowerCaseLatin item.(Blog.description) text ∨
     Exists (λ tag, Blog.containsIgnoringCase Blog.toLowerCaseLatin tag text)
       item.(Blog.tags)).
Proof.
  apply (pureFilterPosts_derived_view Blog.toLowerCaseLatin samplePosts
           (JS.str "Sorting") (Some (JS.str "merge"))).
  reflexivity.
Defined.

(** ** Password rules (Signup) *)

Section PasswordFacts.
Import JS Signup.

Lemma test_present (k : charClass) (s : jsstring) :
  test k s = true ↔ ∃ c, c ∈ s ∧ inClass k c = true.
Proof.
  unfold test.
  rewrite (existsb_Exists _ (λ c, inClass k c = true)) by done.
  apply Exists_exists.
Qed.

Lemma test_pointwise (k : charClass) (p q : jsstring) :
  Forall2 (λ a b, inClass k a = inClass k b) p q → test k p = test k q.
Proof. unfold test. induction 1 as [|a b p q Hab _ IH]; simpl; congruence. Qed.

Lemma flag_test (k : charClass) (s : jsstring) :
  flag k (checkPasswordRules s) = test k s.
Proof. by destruct k. Qed.

Lemma inClass_Special (c : code_unit) :
  inClass Special c = true ↔ c ∈ str "!@#$%^&*".
Proof.
  change (str "!@#$%^&*") with [33; 64; 35; 36; 37; 94; 38; 42]%N.
  unfold inClass. rewrite !orb_true_iff, !N.eqb_eq.
  rewrite !elem_of_cons, elem_of_nil. tauto.
Qed.

End PasswordFacts.

(** C5: for every password, [checkPasswordRules] returns five booleans,
    each decided by its own predicate on the raw string: [length] by the
    string having at least 8 code units, [uppercase], [lowercase],
    [number] and [specialChar] by the string holding a character in A-Z,
    a-z, 0-9 and !@#$%^&* respectively.  "Abc1234!" sets all five flags,
    "abcdefgh" sets exactly [length] and [lowercase]. *)
Theorem checkPasswordRules_flags (password : JS.jsstring) :
  let r := Signup.checkPasswordRules password in
  (Signup.length r = true ↔ (8 ≤ length password)%nat) ∧
  (Signup.uppercase r = true ↔ ∃ c, c ∈ password ∧ (65 ≤ c ≤ 90)%N) ∧
  (Signup.lowercase r = true ↔ ∃ c, c ∈ password ∧ (97 ≤ c ≤ 122)%N) ∧
  (Signup.number r = true ↔ ∃ c, c ∈ password ∧ (48 ≤ c ≤ 57)%N) ∧
  (Signup.specialChar r = true ↔ ∃ c, c ∈ password ∧ c ∈ JS.str "!@#$%^&*") ∧
  Signup.checkPasswordRules (JS.str "Abc1234!")
    = Signup.PasswordRules true true true true true ∧
  Signup.checkPasswordRules (JS.str "abcdefgh")
    = Signup.PasswordRules true false true false false.
Proof.
  cbn zeta. unfold Signup.checkPasswordRules; cbn [Signup.length Signup.uppercase
    Signup.lowercase Signup.number Signup.specialChar].
  repeat split; try reflexivity.
  - intros H%Z.leb_le. lia.
  - intros H. apply Z.leb_le. lia.
  - intros (c & Hc & H)%test_present. exists c. split; [done |].
    apply andb_true_iff in H as [?%N.leb_le ?%N.leb_le]. lia.
  - intros (c & Hc & H). apply test_present. exists c. split; [done |].
    apply andb_true_iff. split; apply N.leb_le; lia.
  - intros (c & Hc & H)%test_present. exists c. split; [done |].
    apply andb_true_iff in H as [?%N.leb_le ?%N.leb_le]. lia.
  - intros (c & Hc & H). apply test_present. exists c. split; [done |].
    apply andb_true_iff. split; apply N.leb_le; lia.
  - intros (c & Hc & H)%test_present. exists c. split; [done |].
    apply andb_true_iff in H as [?%N.leb_le ?%N.leb_le]. lia.
  - intros (c & Hc & H). apply test_present. exists c. split; [done |].
    apply andb_true_iff. split; apply N.leb_le; lia.
  - intros (c & Hc & H)%test_present. exists c. split; [done |].
    by apply inClass_Special.
  - intros (c & Hc & H). apply test_present. exists c. split; [done |].
    by apply inClass_Special.
Qed.

(** C6: the flags of [checkPasswordRules] are independent.  Two passwords
    that agree on having at least 8 characters have equal [length] flags;
    two passwords that agree on whether a character of a class is present
    have equal flags for that class; and when one password is obtained from
    another by replacing characters position by position, so that the
    length is kept, every class whose membership no replacement alters
    keeps its flag, and so does [length]. *)
Theorem checkPasswordRules_independent (p q : JS.jsstring) :
  (((8 ≤ length p)%nat ↔ (8 ≤ length q)%nat) →
   Signup.length (Signup.checkPasswordRules p)
   = Signup.length (Signup.checkPasswordRules q)) ∧
  (∀ k, ((∃ c, c ∈ p ∧ Signup.inClass k c = true) ↔
         (∃ c, c ∈ q ∧ Signup.inClass k c = true)) →
        Signup.flag k (Signup.checkPasswordRules p)
        = Signup.flag k (Signup.checkPasswordRules q)) ∧
  (∀ k, Forall2 (λ a b, Signup.inClass k a = Signup.inClass k b) p q →
        Signup.flag k (Signup.checkPasswordRules p)
        = Signup.flag k (Signup.checkPasswordRules q) ∧
        Signup.length (Signup.checkPasswordRules p)
        = Signup.length (Signup.checkPasswordRules q)).
Proof.
  split; [| split].
  - intros H. cbn.
    destruct (Z.leb_spec 8 (Z.of_nat (length p))),
             (Z.leb_spec 8 (Z.of_nat (length q))); try done; lia.
  - intros k H. rewrite !flag_test.
    rewrite <- !test_present in H.
    destruct (Signup.test k p), (Signup.test k q); try done.
    + symmetry. by apply H.
    + by apply H.
  - intros k H. rewrite !flag_test. split; [by apply test_pointwise |].
    cbn. by rewrite (Forall2_length _ _ _ H).
Qed.

Lemma checkPasswordRules_independent_witness :
  let p := JS.str "Abc1234!" in
  let q := JS.str "Xyz1234!" in
  Signup.length (Signup.checkPasswordRules p)
  = Signup.length (Signup.checkPasswordRules q) ∧
  Signup.flag Signup.Digit (Signup.checkPasswordRules p)
  = Signup.flag Signup.Digit (Signup.checkPasswordRules q) ∧
  Signup.flag Signup.Special (Signup.checkPasswordRules p)
  = Signup.flag Signup.Special (Signup.checkPasswordRules q).
Proof.
  destruct (checkPasswordRules_independent (JS.str "Abc1234!") (JS.str "Xyz1234!"))
    as (Hlen & Hpresent & Hedit).
  split; [| split].
  - apply Hlen. vm_compute. split; intros _; lia.
  - apply Hpresent. split; intros _; exists 49%N;
      (split; [vm_compute; repeat constructor | reflexivity]).
  - apply Hedit. vm_compute. repeat constructor.
Defined.

(** ** Submission (Signup) *)

Section SubmitFacts.
Import JS Signup SignupView.

Lemma messageOr_message (m fallback : jsstring) :
  m ≠ [] → messageOr (Some m) fallback = m.
Proof. by destruct m. Qed.

Lemma handleSubmit_blocked (signup : authService) (v : view) :
  password (form v) ≠ confirmPassword (form v) ∨ agreeToTerms (form v) = false →
  handleSubmit signup v
  = setError (if bool_decide (password (form v) = confirmPassword (form v))
              then str "Please agree to the terms and conditions"
              else str "Passwords don't match!") v.
Proof.
  intros H. unfold handleSubmit. cbn [form setError].
  case_bool_decide as Heq; cbn [negb]; [| done].
  destruct H as [H | ->]; done.
Qed.

Lemma trySetItem_frame (key value : jsstring) (v : view) :
  signupCalls (viewOf (trySetItem key value v)) = signupCalls v ∧
  form (viewOf (trySetItem key value v)) = form v.
Proof. unfold trySetItem. by destruct (storageThrows v key value). Qed.

(** The [try] block neither calls the backend again nor edits the form. *)
Lemma tryBlock_frame (result : signupResult) (v : view) :
  signupCalls (viewOf (tryBlock result v)) = signupCalls v ∧
  form (viewOf (tryBlock result v)) = form v.
Proof.
  unfold tryBlock.
  destruct result as [[u t] | m | m |]; cbn [user token viewOf]; try done.
  destruct u; cbn [viewOf]; try done.
  all: match goal with |- context [trySetItem ?k ?x ?v0] =>
         pose proof (trySetItem_frame k x v0) as [H1 H1'];
         destruct (trySetItem k x v0) as [w|e w] end;
       cbn [viewOf] in *; [| done].
  all: pose proof (trySetItem_frame (str "token") t w) as [H2 H2'];
       destruct (trySetItem (str "token") t w) as [w2|e2 w2];
       cbn [viewOf] in *; [| split; congruence].
  all: cbn [navigate signupCalls form]; split; congruence.
Qed.

(** A submission that passes both checks runs the three blocks. *)
Lemma handleSubmit_run (signup : authService) (v : view) :
  password (form v) = confirmPassword (form v) →
  agreeToTerms (form v) = true →
  handleSubmit signup v
  = finish
      match tryBlock
              (signup (trim (firstName (form v) ++ str " " ++ lastName (form v)))
                 (email (form v)) (password (form v)))
              (callSignup (trim (firstName (form v) ++ str " " ++ lastName (form v)))
                 (email (form v)) (password (form v))
                 (setIsLoading true (setError [] v))) with
      | Normal w => Normal w
      | Throw e w => catchBlock e w
      end.
Proof.
  intros Heq Hagree. unfold handleSubmit. cbn [form setError].
  by rewrite bool_decide_eq_true_2, Hagree by done.
Qed.

Lemma handleSubmit_sent (signup : authService) (v : view) :
  password (form v) = confirmPassword (form v) →
  agreeToTerms (form v) = true →
  let name := trim (firstName (form v) ++ str " " ++ lastName (form v)) in
  signupCalls (handleSubmit signup v)
  = signupCalls v ++ [(name, email (form v), password (form v))].
Proof.
  intros Heq Hagree. unfold handleSubmit. cbn [form setError].
  rewrite bool_decide_eq_true_2, Hagree by done. cbn [negb].
  match goal with |- context [tryBlock ?r ?w] =>
    pose proof (tryBlock_frame r w) as [Hcalls _]; destruct (tryBlock r w) as [w'|e w']
  end; cbn [viewOf] in Hcalls.
  - cbn. by rewrite Hcalls.
  - destruct e; cbn; by rewrite Hcalls.
Qed.

End SubmitFacts.

(** C7: signup submission is blocked on the client exactly when the
    confirmation differs from the password or the consent flag is unset:
    then [handleSubmit] sets an inline error and returns without calling
    the backend.  When the submission is sent and the backend rejects with
    a message, that very message is stored for display, no navigation
    happens, the form is kept and loading is cleared. *)
Theorem handleSubmit_blocks_and_reports
    (signup : Signup.authService) (v : Signup.view) :
  let fd := Signup.form v in
  let v' := Signup.handleSubmit signup v in
  let blocked :=
    Signup.password fd ≠ Signup.confirmPassword fd ∨ Signup.agreeToTerms fd = false in
  (Signup.signupCalls v' = Signup.signupCalls v ↔ blocked) ∧
  (blocked →
     (Signup.error v' = JS.str "Passwords don't match!" ∨
      Signup.error v' = JS.str "Please agree to the terms and conditions") ∧
     Signup.isLoading v' = Signup.isLoading v ∧
     Signup.navigations v' = Signup.navigations v ∧
     Signup.localStorage v' = Signup.localStorage v ∧
     Signup.form v' = fd) ∧
  (∀ message,
     ¬ blocked → message ≠ [] →
     signup (JS.trim (Signup.firstName fd ++ JS.str " " ++ Signup.lastName fd))
       (Signup.email fd) (Signup.password fd) = Signup.Rejects (Some message) →
     Signup.error v' = message ∧
     Signup.navigations v' = Signup.navigations v ∧
     Signup.localStorage v' = Signup.localStorage v ∧
     Signup.form v' = fd ∧
     Signup.isLoading v' = false).
Proof.
  intros fd v' blocked. subst fd v' blocked.
  destruct (decide (Signup.password (Signup.form v)
                    = Signup.confirmPassword (Signup.form v))) as [Heq | Hne];
    [destruct (Signup.agreeToTerms (Signup.form v)) eqn:Hagree |].
  - (* the submission is sent *)
    split; [| split].
    + rewrite handleSubmit_sent by done. split.
      * intros H%(f_equal length). rewrite length_app in H. simpl in H. lia.
      * intros [? | ?]; done.
    + intros [? | ?]; done.
    + intros message _ Hmsg Hrej. unfold Signup.handleSubmit.
      cbn [Signup.form Signup.setError].
      rewrite bool_decide_eq_true_2, Hagree, Hrej by done.
      cbn [negb Signup.tryBlock Signup.catchBlock].
      rewrite messageOr_message by done. repeat split.
  - (* consent is missing *)
    assert (Signup.password (Signup.form v) ≠ Signup.confirmPassword (Signup.form v)
            ∨ Signup.agreeToTerms (Signup.form v) = false) as Hb by (by right).
    rewrite (handleSubmit_blocked signup v Hb).
    rewrite bool_decide_eq_true_2 by done.
    split; [split; [intros _; auto | reflexivity] | split].
    + intros _. split; [by right | repeat split].
    + intros message Hnb. destruct Hnb. auto.
  - (* the passwords differ *)
    assert (Signup.password (Signup.form v) ≠ Signup.confirmPassword (Signup.form v)
            ∨ Signup.agreeToTerms (Signup.form v) = false) as Hb by (by left).
    rewrite (handleSubmit_blocked signup v Hb).
    rewrite bool_decide_eq_false_2 by done.
    split; [split; [intros _; auto | reflexivity] | split].
    + intros _. split; [by left | repeat split].
    + intros message Hnb. destruct Hnb. auto.
Qed.

Example handleSubmit_mismatch :
  Signup.handleSubmit emailInUse (sampleView (JS.str "Abc1234?") true)
  = Signup.setError (JS.str "Passwords don't match!")
      (sampleView (JS.str "Abc1234?") true).
Proof. reflexivity. Qed.

Example handleSubmit_accepted :
  let v' := Signup.handleSubmit accepts (sampleView (JS.str "Abc1234!") true) in
  Signup.navigations v' = [JS.str "/"] ∧
  Signup.localStorage v'
  = [(JS.str "token", JS.str "token-1");
     (JS.str "user", 34%N :: JS.str "Ada Lovelace" ++ [34%N])] ∧
  Signup.error v' = [] ∧ Signup.isLoading v' = false.
Proof. repeat split. Qed.

Lemma handleSubmit_blocks_and_reports_witness :
  let v := sampleView (JS.str "Abc1234!") true in
  let v' := Signup.handleSubmit emailInUse v in
  Signup.error v' = JS.str "Email already in use" ∧
  Signup.navigations v' = Signup.navigations v ∧
  Signup.localStorage v' = Signup.localStorage v ∧
  Signup.form v' = Signup.form v ∧
  Signup.isLoading v' = false.
Proof.
  destruct (handleSubmit_blocks_and_reports emailInUse
              (sampleView (JS.str "Abc1234!") true)) as (_ & _ & Hrejected).
  apply Hrejected.
  - intros [H | H]; [by apply H | discriminate H].
  - discriminate.
  - reflexivity.
Defined.

(** ** Repository statistics (Contribute) *)

Section StatsFacts.
Import JS Contribute.

Lemma or_absent (v : jsval) : truthy v = false → or v (Num 0) = Num 0.
Proof. unfold or. by intros ->. Qed.

Lemma fetchRepoStats_failed (outcome : fetchOutcome) (st : state) :
  failed outcome = true →
  ∃ lines, fetchRepoStats outcome st
           = Normal {| repoStats := repoStats st; console := console st ++ lines |}.
Proof.
  destruct st as [s c].
  destruct outcome as [|[] [|[data|]]]; try discriminate; intros _; cbn;
    [ exists [ErrorFetchingRepoStats]
    | exists [ErrorFetchingRepoStats]
    | exists [Log None; ErrorFetchingRepoStats]
    | exists [] .. ];
    unfold catchBlock, consoleWrite; cbn;
    by rewrite <- ?app_assoc, ?app_nil_r.
Qed.

End StatsFacts.

(** C8: whatever the outcome of the repository-statistics fetch, the view
    does not crash and a failure is only logged.  [repoStats] starts at
    zeros; a rejected fetch, a non-OK response or an exception inside the
    [try] block leaves it unchanged and touches only the console: every
    failure that throws is caught and logged by one [console.error] line
    (after the [console.log] of the body when the body is null), and a
    non-OK response is passed over without a line; on success the data is
    logged and every count that is absent (or otherwise falsy) in the
    response is shown as 0. *)
Theorem fetchRepoStats_degrades_to_defaults
    (outcome : Contribute.fetchOutcome) (st : Contribute.state) :
  Contribute.repoStats Contribute.initialState
  = Contribute.Stats (Contribute.Num 0) (Contribute.Num 0) (Contribute.Num 0)
      (Contribute.Num 0) ∧
  ∃ st' lines,
    Contribute.fetchRepoStats outcome st = Contribute.Normal st' ∧
    Contribute.console st' = Contribute.console st ++ lines ∧
    lines
    = match outcome with
      | Contribute.FetchRejects
      | Contribute.Responds true Contribute.JsonRejects =>
          [Contribute.ErrorFetchingRepoStats]
      | Contribute.Responds true (Contribute.JsonYields None) =>
          [Contribute.Log None; Contribute.ErrorFetchingRepoStats]
      | Contribute.Responds true (Contribute.JsonYields (Some data)) =>
          [Contribute.Log (Some data)]
      | Contribute.Responds false _ => []
      end ∧
    (Contribute.failed outcome = true →
       Contribute.repoStats st' = Contribute.repoStats st) ∧
    (∀ data,
       outcome = Contribute.Responds true (Contribute.JsonYields (Some data)) →
       let shown field := Contribute.or (field data) (Contribute.Num 0) in
       Contribute.stars (Contribute.repoStats st') = shown Contribute.stargazers_count ∧
       Contribute.forks (Contribute.repoStats st') = shown Contribute.forks_count ∧
       Contribute.issues (Contribute.repoStats st') = shown Contribute.open_issues_count ∧
       (Contribute.stargazers_count data = Contribute.Undefined →
          Contribute.stars (Contribute.repoStats st') = Contribute.Num 0) ∧
       (Contribute.forks_count data = Contribute.Undefined →
          Contribute.forks (Contribute.repoStats st') = Contribute.Num 0) ∧
       (Contribute.open_issues_count data = Contribute.Undefined →
          Contribute.issues (Contribute.repoStats st') = Contribute.Num 0)).
Proof.
  split; [reflexivity |].
  destruct st as [s c].
  destruct outcome as [|[] [|[data|]]];
    unfold Contribute.fetchRepoStats, Contribute.tryBlock, Contribute.catchBlock,
      Contribute.consoleWrite, Contribute.setRepoStats;
    cbn [Contribute.repoStats Contribute.console Contribute.failed];
    eexists _, _; (split; [reflexivity |]);
    cbn [Contribute.repoStats Contribute.console].
  - split; [reflexivity |]. by repeat split.
  - split; [reflexivity |]. by repeat split.
  - split; [reflexivity |]. split; [reflexivity |]. split; [done |].
    intros data' [= <-]. cbn. repeat split; intros ->; done.
  - split; [symmetry; apply (app_assoc c [_] [_]) |]. by repeat split.
  - split; [symmetry; apply app_nil_r |]. by repeat split.
  - split; [symmetry; apply app_nil_r |]. by repeat split.
  - split; [symmetry; apply app_nil_r |]. by repeat split.
Qed.

Lemma fetchRepoStats_degrades_to_defaults_witness :
  let partial := Contribute.RepoData (Contribute.Num 42) Contribute.Undefined
                   Contribute.Null in
  (∃ st', Contribute.fetchRepoStats Contribute.FetchRejects Contribute.initialState
          = Contribute.Normal st' ∧
          Contribute.console st' = [Contribute.ErrorFetchingRepoStats] ∧
          Contribute.repoStats st' = Contribute.repoStats Contribute.initialState) ∧
  (∃ st', Contribute.fetchRepoStats
            (Contribute.Responds true (Contribute.JsonYields (Some partial)))
            Contribute.initialState = Contribute.Normal st' ∧
          Contribute.stars (Contribute.repoStats st') = Contribute.Num 42 ∧
          Contribute.forks (Contribute.repoStats st') = Contribute.Num 0).
Proof.
  split.
  - destruct (fetchRepoStats_degrades_to_defaults Contribute.FetchRejects
                Contribute.initialState)
      as (_ & st' & lines & Hrun & Hconsole & Hlines & Hkeep & _).
    exists st'. split; [exact Hrun |]. split; [| apply Hkeep; reflexivity].
    rewrite Hconsole, Hlines. reflexivity.
  - destruct (fetchRepoStats_degrades_to_defaults
                (Contribute.Responds true (Contribute.JsonYields (Some
                   (Contribute.RepoData (Contribute.Num 42) Contribute.Undefined
                      Contribute.Null))))
                Contribute.initialState)
      as (_ & st' & lines & Hrun & _ & _ & _ & Hok).
    exists st'. split; [exact Hrun |].
    destruct (Hok _ eq_refl) as (Hstars & _ & _ & _ & Hforks & _).
    split; [exact Hstars | apply Hforks; reflexivity].
Defined.

(** ** Interaction counters (Blog) *)

Section CounterFacts.
Import JS Blog.
Variable toLowerCase : jsstring → jsstring.
Variable blogPostsData : list post.

#[local] Abbreviation dispatch := (dispatch toLowerCase blogPostsData).
#[local] Abbreviation handler := (handler toLowerCase blogPostsData).

Ltac run_handler :=
  unfold handler, handleSearch, handleCategorySelect, trackPostInteraction,
    newsletterSubscribeClick,
    loadTimer, countFilterOperation, trackPerformance, bind, setSearchTerm,
    setSelectedCategory,
    setBlogPosts, setIsLoading, setPerformanceMetrics, logDebug;
  cbn.

Lemma countersLe_refl m : countersLe m m.
Proof. unfold countersLe. lia. Qed.

Lemma countersLe_trans a b c : countersLe a b → countersLe b c → countersLe a c.
Proof. unfold countersLe. lia. Qed.

Lemma handler_monotone ev st :
  countersLe (performanceMetrics st) (performanceMetrics (snd (handler ev st))).
Proof. destruct ev; run_handler; unfold countersLe; cbn; lia. Qed.

Lemma effect_monotone before st :
  countersLe (performanceMetrics st)
    (performanceMetrics (snd (filterOperationsEffect before st))).
Proof.
  unfold filterOperationsEffect, countFilterOperation.
  destruct (depsChanged before st), (isLoading st);
    run_handler; unfold countersLe; cbn; lia.
Qed.

Lemma dispatch_split st ev :
  dispatch st ev = snd (filterOperationsEffect st (snd (handler ev st))).
Proof. unfold Blog.dispatch, bind. by destruct (handler ev st) as [[] st']. Qed.

Lemma dispatch_monotone st ev :
  countersLe (performanceMetrics st) (performanceMetrics (dispatch st ev)).
Proof.
  rewrite dispatch_split.
  eapply countersLe_trans; [apply handler_monotone | apply effect_monotone].
Qed.

Lemma foldl_dispatch_monotone evs st :
  countersLe (performanceMetrics st) (performanceMetrics (foldl dispatch st evs)).
Proof.
  revert st. induction evs as [|ev evs IH]; intros st; simpl.
  - apply countersLe_refl.
  - eapply countersLe_trans; [apply dispatch_monotone | apply IH].
Qed.

End CounterFacts.

Section EffectFacts.
Import JS Blog.
Variable toLowerCase : jsstring → jsstring.
Variable blogPostsData : list post.

#[local] Abbreviation dispatch := (dispatch toLowerCase blogPostsData).

Ltac run_dispatch :=
  unfold Blog.dispatch, Blog.handler, handleSearch, handleCategorySelect,
    trackPostInteraction, newsletterSubscribeClick, loadTimer,
    filterOperationsEffect, countFilterOperation, depsChanged,
    trackPerformance, bind, setSearchTerm, setSelectedCategory, setBlogPosts,
    setIsLoading, setPerformanceMetrics, logDebug;
  cbn [fst snd blogPosts selectedCategory searchTerm isLoading performanceMetrics].

Ltac decide_deps :=
  repeat case_bool_decide; subst; try congruence;
  cbn [negb andb orb fst snd blogPosts selectedCategory searchTerm isLoading
       performanceMetrics searchOperations filterOperations pageLoadTime
       interactions];
  rewrite ?Z.add_0_r; try done.

(** The metrics after a whole event: the handler, and then the effect on
    the dependencies the handler changed. *)
Lemma dispatch_search_metrics term st :
  performanceMetrics (dispatch st (SearchInput term))
  = {| searchOperations := searchOperations (performanceMetrics st) + 1;
       filterOperations :=
         filterOperations (performanceMetrics st)
         + (if isLoading st || bool_decide (term = searchTerm st) then 0 else 1);
       pageLoadTime := pageLoadTime (performanceMetrics st);
       interactions := interactions (performanceMetrics st) + 1 |}.
Proof.
  destruct st as [c s ps l [so fo pl ia] cs]. run_dispatch.
  destruct l; decide_deps.
Qed.

Lemma dispatch_category_metrics category st :
  performanceMetrics (dispatch st (CategoryClick category))
  = {| searchOperations := searchOperations (performanceMetrics st);
       filterOperations :=
         filterOperations (performanceMetrics st)
         + (if isLoading st || bool_decide (category = selectedCategory st)
            then 0 else 1);
       pageLoadTime := pageLoadTime (performanceMetrics st);
       interactions := interactions (performanceMetrics st) + 1 |}.
Proof.
  destruct st as [c s ps l [so fo pl ia] cs]. run_dispatch.
  destruct l; decide_deps.
Qed.

Lemma dispatch_open_metrics postId action st :
  performanceMetrics (dispatch st (PostOpen postId action))
  = {| searchOperations := searchOperations (performanceMetrics st);
       filterOperations := filterOperations (performanceMetrics st);
       pageLoadTime := pageLoadTime (performanceMetrics st);
       interactions := interactions (performanceMetrics st) + 1 |}.
Proof.
  destruct st as [c s ps l [so fo pl ia] cs]. run_dispatch.
  destruct l; decide_deps.
Qed.

Lemma dispatch_load_metrics loadDuration st :
  performanceMetrics (dispatch st (LoadTimerFired loadDuration))
  = {| searchOperations := searchOperations (performanceMetrics st);
       filterOperations :=
         filterOperations (performanceMetrics st)
         + (if isLoading st || negb (bool_decide (blogPosts st = blogPostsData))
            then 1 else 0);
       pageLoadTime := Some loadDuration;
       interactions := interactions (performanceMetrics st) |}.
Proof.
  destruct st as [c s ps l [so fo pl ia] cs]. run_dispatch.
  destruct l; decide_deps.
Qed.

End EffectFacts.

#[local] Existing Instance Blog.post_eq_dec.

(** C9: each interaction-recording operation increments its counters and
    returns nothing: a search adds one to [searchOperations] and to
    [interactions], a category change and an item open add one to
    [interactions], and the effect that follows a change of the filter
    parameters adds one to [filterOperations]: once the page has loaded, a
    search with a new term and a click on another category each count one
    filter operation, a repeated term or category and an item open count
    none, and the load itself counts one.  The counters are zero at
    mount, stay non-negative, and no event of a page lifetime decreases
    any of them, so they are non-decreasing along every event sequence. *)
Theorem interaction_counters_monotone
    (toLowerCase : JS.jsstring → JS.jsstring) (blogPostsData : list Blog.post) :
  let metricsAfter (h : Blog.M unit) st := Blog.performanceMetrics (snd (h st)) in
  let bump ds df di (m : Blog.metrics) :=
    Blog.Metrics (Blog.searchOperations m + ds) (Blog.filterOperations m + df)
      (Blog.pageLoadTime m) (Blog.interactions m + di) in
  let after st ev :=
    Blog.performanceMetrics (Blog.dispatch toLowerCase blogPostsData st ev) in
  let counted (st : Blog.state) (unchanged : bool) : Z :=
    if Blog.isLoading st || unchanged then 0 else 1 in
  (∀ term st,
     fst (Blog.handleSearch toLowerCase term st) = tt ∧
     metricsAfter (Blog.handleSearch toLowerCase term) st
     = bump 1 0 1 (Blog.performanceMetrics st)) ∧
  (∀ category st,
     fst (Blog.handleCategorySelect toLowerCase category st) = tt ∧
     metricsAfter (Blog.handleCategorySelect toLowerCase category) st
     = bump 0 0 1 (Blog.performanceMetrics st)) ∧
  (∀ postId action st,
     fst (Blog.trackPostInteraction postId action st) = tt ∧
     metricsAfter (Blog.trackPostInteraction postId action) st
     = bump 0 0 1 (Blog.performanceMetrics st)) ∧
  (∀ st,
     metricsAfter Blog.countFilterOperation st
     = bump 0 (if Blog.isLoading st then 0 else 1) 0 (Blog.performanceMetrics st)) ∧
  (∀ term st,
     after st (Blog.SearchInput term)
     = bump 1 (counted st (bool_decide (term = Blog.searchTerm st))) 1
         (Blog.performanceMetrics st)) ∧
  (∀ category st,
     after st (Blog.CategoryClick category)
     = bump 0 (counted st (bool_decide (category = Blog.selectedCategory st))) 1
         (Blog.performanceMetrics st)) ∧
  (∀ postId action st,
     after st (Blog.PostOpen postId action)
     = bump 0 0 1 (Blog.performanceMetrics st)) ∧
  (∀ loadDuration st,
     Blog.filterOperations (after st (Blog.LoadTimerFired loadDuration))
     = Blog.filterOperations (Blog.performanceMetrics st)
       + (if Blog.isLoading st
             || negb (bool_decide (Blog.blogPosts st = blogPostsData))
          then 1 else 0)) ∧
  Blog.performanceMetrics Blog.initialState = Blog.Metrics 0 0 None 0 ∧
  (∀ st ev,
     countersLe (Blog.performanceMetrics st)
       (Blog.performanceMetrics (Blog.dispatch toLowerCase blogPostsData st ev))) ∧
  (∀ evs more,
     countersLe
       (Blog.performanceMetrics (Blog.run toLowerCase blogPostsData evs))
       (Blog.performanceMetrics (Blog.run toLowerCase blogPostsData (evs ++ more)))) ∧
  (∀ evs,
     countersNonneg (Blog.performanceMetrics (Blog.run toLowerCase blogPostsData evs))).
Proof.
  cbn zeta. split_and!.
  - intros term [? ? ? ? [] ?]. cbn. by rewrite !Z.add_0_r.
  - intros category [? ? ? ? [] ?]. cbn. by rewrite !Z.add_0_r.
  - intros postId action [? ? ? ? [] ?]. cbn. by rewrite !Z.add_0_r.
  - intros [? ? ? [] [] ?]; cbn; by rewrite !Z.add_0_r.
  - intros term st. apply dispatch_search_metrics.
  - intros category st. rewrite dispatch_category_metrics. by rewrite Z.add_0_r.
  - intros postId action st. rewrite dispatch_open_metrics. by rewrite !Z.add_0_r.
  - intros loadDuration st. by rewrite dispatch_load_metrics.
  - reflexivity.
  - apply dispatch_monotone.
  - intros evs more. unfold Blog.run. rewrite foldl_app.
    apply foldl_dispatch_monotone.
  - intros evs. apply (foldl_dispatch_monotone toLowerCase blogPostsData evs
                         Blog.initialState).
Qed.

Example counters_after_session :
  let st := Blog.run Blog.toLowerCaseLatin samplePosts
              [Blog.SearchInput (JS.str "early");
               Blog.LoadTimerFired 300;
               Blog.SearchInput (JS.str "merge");
               Blog.CategoryClick (JS.str "Sorting");
               Blog.CategoryClick (JS.str "Sorting");
               Blog.PostOpen 1 (JS.str "read_more")] in
  Blog.performanceMetrics st = Blog.Metrics 2 3 (Some 300) 5 ∧
  Blog.id <$> Blog.filteredPosts Blog.toLowerCaseLatin st = [1; 3].
Proof. split; reflexivity. Qed.

(** ** Password input (Signup) *)

Section PasswordInputFacts.
Import JS Signup.

Lemma startsWith_space (s : jsstring) :
  startsWith s (str " ") = true ↔ ∃ s', s = 32%N :: s'.
Proof.
  rewrite startsWith_prefix. change (str " ") with [32%N].
  split; intros [s' ->]; by exists s'.
Qed.

Lemma trimStart_no_space (s : jsstring) : startsWith (trimStart s) (str " ") = false.
Proof.
  apply not_true_is_false. intros [s' Hs]%startsWith_space.
  pose proof (trimStart_head s) as H. by rewrite Hs in H.
Qed.

Lemma handlePasswordChange_no_space value fd :
  startsWith (password (handlePasswordChange value fd)) (str " ") = false.
Proof.
  unfold handlePasswordChange. cbn [password].
  destruct (startsWith value (str " ")) eqn:Hs; [apply trimStart_no_space | done].
Qed.

Lemma onChange_no_space fd ev :
  startsWith (password fd) (str " ") = false →
  startsWith (password (onChange fd ev)) (str " ") = false.
Proof.
  intros H. destruct ev as [[] v | v | v]; try done.
  apply handlePasswordChange_no_space.
Qed.

(** What [trimStart] removes is a run of whitespace. *)
Lemma trimStart_strips (s : jsstring) :
  ∃ ws, s = ws ++ trimStart s ∧ Forall (λ c, isWhiteSpace c = true) ws.
Proof.
  induction s as [|c s (ws & Hs & Hws)]; simpl.
  - by exists [].
  - destruct (isWhiteSpace c) eqn:Hc.
    + exists (c :: ws). split; [by rewrite <- app_comm_cons, <- Hs |].
      by constructor.
    + by exists [].
Qed.

End PasswordInputFacts.

(** C10: the password stored in the signup form state never begins with a
    space.  It is empty at first; every input event processed by
    [handlePasswordChange] stores a value that does not start with a space,
    and when the raw input starts with a space the stored value is the raw
    input without its leading whitespace; no other input handler writes
    the password.  So [checkPasswordRules] and the comparison made on
    submit always see a password without a leading space. *)
Theorem stored_password_has_no_leading_space (evs : list Signup.inputEvent) :
  JS.startsWith (Signup.password (Signup.formAfter evs)) (JS.str " ") = false ∧
  (∀ value fd,
     let stored := Signup.password (Signup.handlePasswordChange value fd) in
     JS.startsWith stored (JS.str " ") = false ∧
     (JS.startsWith value (JS.str " ") = true →
        ∃ ws, value = ws ++ stored ∧
              Forall (λ c, JS.isWhiteSpace c = true) ws ∧
              ∀ c rest, stored = c :: rest → JS.isWhiteSpace c = false)).
Proof.
  split.
  - unfold Signup.formAfter.
    assert (∀ fd, JS.startsWith (Signup.password fd) (JS.str " ") = false →
              JS.startsWith (Signup.password (foldl Signup.onChange fd evs))
                (JS.str " ") = false) as Hinv.
    { induction evs as [|ev evs IH]; intros fd Hfd; simpl; [done |].
      by apply IH, onChange_no_space. }
    by apply Hinv.
  - intros value fd stored. split; [apply handlePasswordChange_no_space |].
    intros Hs. subst stored. unfold Signup.handlePasswordChange.
    cbn [Signup.password]. rewrite Hs.
    destruct (trimStart_strips value) as (ws & Heq & Hws).
    exists ws. split; [done | split; [done |]].
    intros c rest Hst. pose proof (trimStart_head value) as H.
    by rewrite Hst in H.
Qed.

Lemma stored_password_has_no_leading_space_witness :
  let value := JS.str "  " ++ [9%N] ++ JS.str " Abc1234!" in
  let stored := Signup.password
                  (Signup.handlePasswordChange value Signup.initialFormData) in
  stored = JS.str "Abc1234!" ∧
  ∃ ws, value = ws ++ stored ∧
        Forall (λ c, JS.isWhiteSpace c = true) ws ∧
        ∀ c rest, stored = c :: rest → JS.isWhiteSpace c = false.
Proof.
  split; [reflexivity |].
  destruct (stored_password_has_no_leading_space []) as [_ H].
  destruct (H (JS.str "  " ++ [9%N] ++ JS.str " Abc1234!") Signup.initialFormData)
    as [_ Hstrip].
  apply Hstrip. reflexivity.
Defined.

(** * Further properties of the components *)

(** ** The carousel *)

Section CarouselMoreFacts.
Import JS QuizStart.
Context {A : Type}.
Implicit Types (items : list A) (i n : Z).

Lemma page_length_exact items i n :
  0 < n → 0 ≤ i →
  Z.of_nat (length (page items i n))
  = Z.max 0 (Z.min n (Z.of_nat (length items) - i * n)).
Proof.
  intros Hn Hi. rewrite page_window by done.
  rewrite length_take, length_drop. nia.
Qed.

Lemma last_drop_lt (l : list A) (k : nat) :
  (k < length l)%nat → last (drop k l) = last l.
Proof.
  intros Hk. rewrite !last_lookup, lookup_drop, length_drop. f_equal. lia.
Qed.

End CarouselMoreFacts.

(** X1: the card at position j of page i is the item at index i*n + j of
    the list, and positions from n on are empty. *)
Theorem page_lookup {A} (items : list A) (i n : Z) (j : nat) :
  0 < n → 0 ≤ i →
  QuizStart.page items i n !! j
  = if Z.of_nat j <? n then items !! (Z.to_nat (i * n) + j)%nat else None.
Proof.
  intros Hn Hi. rewrite page_window by done.
  destruct (Z.ltb_spec (Z.of_nat j) n).
  - rewrite lookup_take_lt by lia. rewrite lookup_drop. f_equal. nia.
  - apply lookup_take_ge. lia.
Qed.

Lemma page_lookup_witness :
  QuizStart.page [10; 20; 30; 40; 50; 60; 70] 1 3 !! 2%nat
  = if Z.of_nat 2 <? 3
    then [10; 20; 30; 40; 50; 60; 70] !! (Z.to_nat (1 * 3) + 2)%nat else None.
Proof. apply (page_lookup [10; 20; 30; 40; 50; 60; 70] 1 3 2); lia. Defined.

(** X2: no in-range page is blank: every page before the last holds
    exactly n items and the last one holds between 1 and n. *)
Theorem in_range_pages_filled {A} (items : list A) (i n : Z) :
  0 < n → 0 ≤ i < QuizStart.totalPages items n →
  QuizStart.page items i n ≠ [] ∧
  (i < QuizStart.totalPages items n - 1 →
   Z.of_nat (length (QuizStart.page items i n)) = n) ∧
  (i = QuizStart.totalPages items n - 1 →
   Z.of_nat (length (QuizStart.page items i n))
   = Z.of_nat (length items) - i * n).
Proof.
  intros Hn [Hi Hlt].
  pose proof (ceilDiv_bounds (Z.of_nat (length items)) n Hn) as [Hlo Hhi].
  fold (QuizStart.totalPages items n) in Hlo, Hhi.
  pose proof (page_length_exact items i n Hn Hi) as Hlen.
  split; [| split].
  - intros Hnil. rewrite Hnil in Hlen. simpl in Hlen. nia.
  - intros Hi'. nia.
  - intros ->. nia.
Qed.

Lemma in_range_pages_filled_witness :
  let items := [10; 20; 30; 40; 50; 60; 70] in
  QuizStart.page items 2 3 ≠ [] ∧
  (2 < QuizStart.totalPages items 3 - 1 →
   Z.of_nat (length (QuizStart.page items 2 3)) = 3) ∧
  (2 = QuizStart.totalPages items 3 - 1 →
   Z.of_nat (length (QuizStart.page items 2 3))
   = Z.of_nat (length items) - 2 * 3).
Proof.
  apply (in_range_pages_filled [10; 20; 30; 40; 50; 60; 70] 2 3); [lia |].
  vm_compute. split; [discriminate | reflexivity].
Defined.

Section NavigationMoreFacts.
Import JS QuizStart.
Implicit Types (topics : list topic) (p : Z).

Lemma reachable_next topics p :
  reachable topics p → p < totalTopicPages topics - 1 → 0 ≤ p →
  reachable topics (p + 1).
Proof.
  intros Hr Hlt Hp. eapply rtc_r; [exact Hr |].
  change (p + 1) with (handleTopicNav (direction Next) p).
  constructor. apply enabled_Next. lia.
Qed.

Lemma in_range_reachable topics (k : nat) :
  Z.of_nat k < totalTopicPages topics → reachable topics (Z.of_nat k).
Proof.
  induction k as [|k IH]; intros Hk.
  - apply rtc_refl.
  - rewrite Nat2Z.inj_succ. unfold Z.succ.
    apply reachable_next; [apply IH |..]; lia.
Qed.

Lemma in_range_page_reachable topics p :
  0 ≤ p < totalTopicPages topics → reachable topics p.
Proof.
  intros [Hp Hlt]. rewrite <- (Z2Nat.id p) by done.
  apply in_range_reachable. lia.
Qed.

End NavigationMoreFacts.

(** X3: the carousel can be navigated to every page: each index with
    0 ≤ p < totalTopicPages is reachable from the initial page through
    enabled buttons. *)
Theorem every_page_reachable (topics : list QuizStart.topic) (p : Z) :
  0 ≤ p < QuizStart.totalTopicPages topics → QuizStart.reachable topics p.
Proof.
  apply in_range_page_reachable.
Qed.

Lemma every_page_reachable_witness :
  QuizStart.reachable (replicate 6 QuizStart.allTopicsEntry) 2.
Proof.
  apply (every_page_reachable (replicate 6 QuizStart.allTopicsEntry) 2).
  vm_compute. split; [discriminate | reflexivity].
Defined.

(** X4: every topic, and the "All Topics" entry, is displayed on some page
    that the user can navigate to. *)
Theorem every_topic_displayed (topics : list QuizStart.topic) (t : QuizStart.topic) :
  t ∈ QuizStart.allTopics topics →
  ∃ p, QuizStart.reachable topics p ∧ t ∈ QuizStart.displayedTopics topics p.
Proof.
  intros Ht.
  rewrite <- (concat_pages (QuizStart.allTopics topics) QuizStart.CARDS_PER_PAGE)
    in Ht by done.
  apply list_elem_of_In, in_concat in Ht as (pg & Hpg & Hin).
  apply list_elem_of_In in Hpg, Hin.
  unfold QuizStart.pages in Hpg.
  apply list_elem_of_fmap in Hpg as (p & -> & Hp%elem_of_seqZ).
  exists p. split; [| done].
  apply in_range_page_reachable. unfold QuizStart.totalTopicPages. lia.
Qed.

Lemma every_topic_displayed_witness :
  let topics := [QuizStart.Topic (JS.str "a") (JS.str "Arrays") [];
                 QuizStart.Topic (JS.str "g") (JS.str "Graphs") [];
                 QuizStart.Topic (JS.str "s") (JS.str "Sorting") []] in
  ∃ p, QuizStart.reachable topics p ∧
       QuizStart.allTopicsEntry ∈ QuizStart.displayedTopics topics p.
Proof.
  apply (every_topic_displayed
           [QuizStart.Topic (JS.str "a") (JS.str "Arrays") [];
            QuizStart.Topic (JS.str "g") (JS.str "Graphs") [];
            QuizStart.Topic (JS.str "s") (JS.str "Sorting") []]
           QuizStart.allTopicsEntry).
  unfold QuizStart.allTopics. apply elem_of_app. right. apply list_elem_of_singleton.
  reflexivity.
Defined.

(** X5: the "All Topics" card is always the last card of the last page. *)
Theorem all_topics_card_is_last (topics : list QuizStart.topic) :
  last (QuizStart.displayedTopics topics (QuizStart.totalTopicPages topics - 1))
  = Some QuizStart.allTopicsEntry.
Proof.
  unfold QuizStart.displayedTopics.
  pose proof (totalTopicPages_pos topics) as Hpos.
  unfold QuizStart.totalTopicPages in *.
  set (items := QuizStart.allTopics topics) in *.
  set (n := QuizStart.CARDS_PER_PAGE) in *.
  assert (0 < n) as Hn by done.
  pose proof (ceilDiv_bounds (Z.of_nat (length items)) n Hn) as [Hlo Hhi].
  fold (QuizStart.totalPages items n) in Hlo, Hhi.
  rewrite page_window by lia.
  rewrite take_ge by (rewrite length_drop; nia).
  rewrite last_drop_lt by nia.
  unfold items, QuizStart.allTopics. apply last_snoc.
Qed.

(** X6: from an in-range page, Next followed by Previous, and Previous
    followed by Next, lead back to the same page whenever the first click
    was on an enabled button. *)
Theorem next_previous_round_trip (topics : list QuizStart.topic) (p : Z) :
  0 ≤ p < QuizStart.totalTopicPages topics →
  (QuizStart.enabled topics p QuizStart.Next = true →
   QuizStart.click topics QuizStart.Previous
     (QuizStart.click topics QuizStart.Next p) = p) ∧
  (QuizStart.enabled topics p QuizStart.Previous = true →
   QuizStart.click topics QuizStart.Next
     (QuizStart.click topics QuizStart.Previous p) = p).
Proof.
  intros Hp. split; intros Hen; unfold QuizStart.click at 2; rewrite Hen;
    unfold QuizStart.handleTopicNav, QuizStart.direction, QuizStart.click.
  - apply enabled_Next in Hen.
    assert (QuizStart.enabled topics (p + 1) QuizStart.Previous = true) as ->
      by (apply enabled_Previous; lia).
    unfold QuizStart.handleTopicNav, QuizStart.direction. lia.
  - apply enabled_Previous in Hen.
    assert (QuizStart.enabled topics (p + -1) QuizStart.Next = true) as ->
      by (apply enabled_Next; lia).
    unfold QuizStart.handleTopicNav, QuizStart.direction. lia.
Qed.

Lemma next_previous_round_trip_witness :
  let topics := replicate 6 QuizStart.allTopicsEntry in
  QuizStart.click topics QuizStart.Previous (QuizStart.click topics QuizStart.Next 1)
  = 1 ∧
  QuizStart.click topics QuizStart.Next (QuizStart.click topics QuizStart.Previous 1)
  = 1.
Proof.
  destruct (next_previous_round_trip (replicate 6 QuizStart.allTopicsEntry) 1)
    as [Hnext Hprev].
  - vm_compute. split; [discriminate | reflexivity].
  - split; [apply Hnext | apply Hprev]; reflexivity.
Defined.

(** ** Starting a quiz *)

Section StartFacts.
Import JS QuizStart QuizControls.

Lemma NoDup_fmap_elem_eq {A B} (f : A → B) (l : list A) (x y : A) :
  NoDup (f <$> l) → x ∈ l → y ∈ l → f x = f y → x = y.
Proof.
  induction l as [|z l IH]; intros Hnd Hx Hy Hf; [by apply elem_of_nil in Hx |].
  rewrite fmap_cons in Hnd. apply NoDup_cons in Hnd as [Hz Hnd].
  apply elem_of_cons in Hx as [-> | Hx], Hy as [-> | Hy]; try done.
  - destruct Hz. rewrite Hf. by apply list_elem_of_fmap_2.
  - destruct Hz. rewrite <- Hf. by apply list_elem_of_fmap_2.
  - by apply IH.
Qed.

Lemma find_elem {A} (f : A → bool) (l : list A) (x : A) :
  x ∈ l → f x = true → ∃ y, List.find f l = Some y ∧ y ∈ l ∧ f y = true.
Proof.
  intros Hx Hf. destruct (List.find f l) as [y|] eqn:Hfind.
  - apply find_some in Hfind as [Hy Hfy]. exists y.
    split; [done |]. split; [by apply list_elem_of_In | done].
  - apply list_elem_of_In in Hx. pose proof (find_none _ _ Hfind _ Hx). congruence.
Qed.

End StartFacts.

(** X7: a quiz is only ever started with both a topic and a difficulty
    chosen, and these are passed on unmodified with the current mode; the
    Start button is disabled in exactly the case [handleStartQuiz] guards
    against, so a click on it never produces the "Please choose" error: it
    leaves the error as it was or clears it. *)
Theorem start_quiz_requires_both_choices
    (selectedTopic selectedDifficulty : QuizControls.selection)
    (st : QuizControls.state) :
  Forall QuizControls.bothChosen (QuizControls.startedQuizzes st) →
  let st' := QuizControls.handleStartQuiz selectedTopic selectedDifficulty st in
  let clicked := QuizControls.clickStart selectedTopic selectedDifficulty st in
  Forall QuizControls.bothChosen (QuizControls.startedQuizzes st') ∧
  (QuizControls.startedQuizzes st' = QuizControls.startedQuizzes st ∨
   QuizControls.startedQuizzes st'
   = QuizControls.startedQuizzes st
     ++ [(selectedTopic, selectedDifficulty, QuizControls.timedMode st)]) ∧
  QuizControls.startedQuizzes clicked = QuizControls.startedQuizzes st' ∧
  (QuizControls.error clicked = QuizControls.error st ∨
   QuizControls.error clicked = []).
Proof.
  intros Hinv st' clicked. subst st' clicked.
  unfold QuizControls.clickStart, QuizControls.startDisabled,
    QuizControls.handleStartQuiz.
  destruct (QuizControls.chosen selectedTopic) eqn:Ht,
           (QuizControls.chosen selectedDifficulty) eqn:Hd; cbn;
    (split; [| split; [| split]]); auto.
  apply Forall_app. split; [done |]. by repeat constructor.
Qed.

Lemma start_quiz_requires_both_choices_witness :
  let st' := QuizControls.handleStartQuiz (Some (JS.str "all")) (Some (JS.str "all"))
               QuizControls.initialState in
  QuizControls.startedQuizzes st'
  = [(Some (JS.str "all"), Some (JS.str "all"), false)] ∧
  Forall QuizControls.bothChosen (QuizControls.startedQuizzes st').
Proof.
  split; [reflexivity |].
  apply (start_quiz_requires_both_choices (Some (JS.str "all")) (Some (JS.str "all"))
           QuizControls.initialState).
  constructor.
Defined.

(** X8: for the id of any card of the carousel the "Get ready for ..."
    line names a topic (the lookup never comes back undefined), and when
    the ids of the cards are pairwise different it names that very card. *)
Theorem quiz_info_names_selected_card
    (topics : list QuizStart.topic) (t : QuizStart.topic) :
  t ∈ QuizStart.allTopics topics →
  ∃ shown,
    QuizControls.quizInfoTopic topics (QuizStart.id t) = Some shown ∧
    (NoDup (QuizStart.id <$> QuizStart.allTopics topics) → shown = QuizStart.name t).
Proof.
  intros Ht. unfold QuizControls.quizInfoTopic.
  case_bool_decide as Hall.
  - eexists. split; [done |]. intros Hnd.
    assert (t = QuizStart.allTopicsEntry) as ->; [| done].
    apply (NoDup_fmap_elem_eq QuizStart.id (QuizStart.allTopics topics)); try done.
    unfold QuizStart.allTopics. apply elem_of_app. right. by apply list_elem_of_singleton.
  - assert (t ∈ topics) as Hin.
    { unfold QuizStart.allTopics in Ht. apply elem_of_app in Ht as [? | Ht]; [done |].
      apply list_elem_of_singleton in Ht. by subst t. }
    destruct (find_elem (λ q, bool_decide (QuizStart.id q = QuizStart.id t)) topics t)
      as (q & -> & Hq & Hid); [done | by apply bool_decide_eq_true |].
    apply bool_decide_eq_true in Hid.
    eexists. split; [done |]. intros Hnd. simpl. f_equal.
    apply (NoDup_fmap_elem_eq QuizStart.id (QuizStart.allTopics topics)); try done.
    unfold QuizStart.allTopics. apply elem_of_app. by left.
Qed.

Lemma quiz_info_names_selected_card_witness :
  let arrays := QuizStart.Topic (JS.str "a") (JS.str "Arrays") [] in
  let graphs := QuizStart.Topic (JS.str "g") (JS.str "Graphs") [] in
  ∃ shown,
    QuizControls.quizInfoTopic [arrays; graphs] (QuizStart.id graphs) = Some shown ∧
    (NoDup (QuizStart.id <$> QuizStart.allTopics [arrays; graphs]) →
     shown = QuizStart.name graphs).
Proof.
  apply (quiz_info_names_selected_card
           [QuizStart.Topic (JS.str "a") (JS.str "Arrays") [];
            QuizStart.Topic (JS.str "g") (JS.str "Graphs") []]
           (QuizStart.Topic (JS.str "g") (JS.str "Graphs") [])).
  apply elem_of_cons. right. apply elem_of_cons. left. reflexivity.
Defined.

(** ** The post filter *)

Section FilterMoreFacts.
Import JS Blog BlogView.
Variable toLowerCase : jsstring → jsstring.

Lemma filter_filter_bool {A} (f g : A → bool) (l : list A) :
  List.filter f (List.filter g l) = List.filter (λ x, g x && f x) l.
Proof.
  induction l as [|x l IH]; [done |]. simpl.
  destruct (g x) eqn:Hg; simpl; [| done]. destruct (f x); by rewrite IH.
Qed.

Lemma filter_length_le {A} (f g : A → bool) (l : list A) :
  (∀ x, f x = true → g x = true) →
  (length (List.filter f l) ≤ length (List.filter g l))%nat.
Proof.
  intros Hfg. induction l as [|x l IH]; [done |]. simpl.
  destruct (f x) eqn:Hf.
  - rewrite (Hfg x Hf). simpl. lia.
  - destruct (g x); simpl; lia.
Qed.

Lemma filter_true {A} (l : list A) : List.filter (λ _, true) l = l.
Proof. induction l as [|x l IH]; [done |]. simpl. by rewrite IH. Qed.

(** With no search text the filter only looks at the category. *)
Lemma pureFilterPosts_no_search posts category :
  toLowerCase [] = [] →
  pureFilterPosts toLowerCase posts category None
  = List.filter (λ post, bool_decide (category = str "All")
                         || bool_decide (Blog.category post = category)) posts.
Proof.
  intros Hnil. unfold pureFilterPosts. cbn [orEmpty]. rewrite Hnil.
  apply filter_ext. intros post. by destruct (_ || _).
Qed.

End FilterMoreFacts.

(** X9: the number on a category button is the number of posts the page
    lists when that category is selected and the search box is empty
    (for "All": every post), and no search text makes the list longer
    than that number. *)
Theorem badge_counts_category_view
    (toLowerCase : JS.jsstring → JS.jsstring) (posts : list Blog.post)
    (category : JS.jsstring) (search : option JS.jsstring) :
  toLowerCase [] = [] →
  BlogView.countBadge posts category
  = Z.of_nat (length (Blog.pureFilterPosts toLowerCase posts category None)) ∧
  Z.of_nat (length (Blog.pureFilterPosts toLowerCase posts category search))
  ≤ BlogView.countBadge posts category ∧
  Blog.pureFilterPosts toLowerCase posts (JS.str "All") None = posts.
Proof.
  intros Hnil.
  assert (BlogView.countBadge posts category
          = Z.of_nat (length (Blog.pureFilterPosts toLowerCase posts category None)))
    as Hbadge.
  { rewrite pureFilterPosts_no_search by done. unfold BlogView.countBadge.
    case_bool_decide as Hall; [| done].
    simpl. by rewrite filter_true. }
  split; [done | split].
  - rewrite Hbadge, pureFilterPosts_no_search by done.
    apply inj_le. unfold Blog.pureFilterPosts. apply filter_length_le.
    intros post. by destruct (_ || _).
  - rewrite pureFilterPosts_no_search by done. simpl. apply filter_true.
Qed.

Lemma badge_counts_category_view_witness :
  BlogView.countBadge samplePosts (JS.str "Sorting")
  = Z.of_nat (length (Blog.pureFilterPosts Blog.toLowerCaseLatin samplePosts
                        (JS.str "Sorting") None)) ∧
  Z.of_nat (length (Blog.pureFilterPosts Blog.toLowerCaseLatin samplePosts
                      (JS.str "Sorting") (Some (JS.str "quick"))))
  ≤ BlogView.countBadge samplePosts (JS.str "Sorting") ∧
  Blog.pureFilterPosts Blog.toLowerCaseLatin samplePosts (JS.str "All") None
  = samplePosts.
Proof.
  apply (badge_counts_category_view Blog.toLowerCaseLatin samplePosts
           (JS.str "Sorting") (Some (JS.str "quick"))).
  reflexivity.
Defined.

(** X10: filtering composes.  Filtering by category first and by search
    text afterwards gives the same list as filtering by both at once;
    filtering twice with the same parameters changes nothing; and two
    filters can be applied in either order. *)
Theorem pureFilterPosts_composes
    (toLowerCase : JS.jsstring → JS.jsstring) (posts : list Blog.post)
    (category category' : JS.jsstring) (search search' : option JS.jsstring) :
  toLowerCase [] = [] →
  let f := Blog.pureFilterPosts toLowerCase in
  f (f posts category None) (JS.str "All") search = f posts category search ∧
  f (f posts category search) category search = f posts category search ∧
  f (f posts category search) category' search'
  = f (f posts category' search') category search.
Proof.
  intros Hnil f. subst f. split; [| split].
  - rewrite pureFilterPosts_no_search by done. unfold Blog.pureFilterPosts.
    rewrite filter_filter_bool. apply filter_ext. intros post.
    destruct (bool_decide (category = JS.str "All")
              || bool_decide (Blog.category post = category)); [| done].
    by rewrite bool_decide_eq_true_2.
  - unfold Blog.pureFilterPosts. rewrite filter_filter_bool.
    apply filter_ext. intros post. apply andb_diag.
  - unfold Blog.pureFilterPosts. rewrite !filter_filter_bool.
    apply filter_ext. intros post. apply andb_comm.
Qed.

Lemma pureFilterPosts_composes_witness :
  let f := Blog.pureFilterPosts Blog.toLowerCaseLatin in
  f (f samplePosts (JS.str "Sorting") None) (JS.str "All") (Some (JS.str "merge"))
  = f samplePosts (JS.str "Sorting") (Some (JS.str "merge")) ∧
  f (f samplePosts (JS.str "Sorting") (Some (JS.str "merge")))
    (JS.str "Sorting") (Some (JS.str "merge"))
  = f samplePosts (JS.str "Sorting") (Some (JS.str "merge")) ∧
  f (f samplePosts (JS.str "Sorting") (Some (JS.str "merge")))
    (JS.str "All") (Some (JS.str "quick"))
  = f (f samplePosts (JS.str "All") (Some (JS.str "quick")))
      (JS.str "Sorting") (Some (JS.str "merge")).
Proof.
  apply (pureFilterPosts_composes Blog.toLowerCaseLatin samplePosts
           (JS.str "Sorting") (JS.str "All")
           (Some (JS.str "merge")) (Some (JS.str "quick"))).
  reflexivity.
Defined.

Lemma existsb_fmap {A B} (f : A → B) (g : B → bool) (l : list A) :
  existsb g (f <$> l) = existsb (λ x, g (f x)) l.
Proof.
  induction l as [|x l IH]; [done |].
  rewrite fmap_cons. cbn [existsb]. by rewrite IH.
Qed.

(** X11: the search ignores letter case on both sides: two search texts
    with the same lower-case form select the same posts, and two posts of
    one category whose titles, descriptions and tags have the same
    lower-case forms are listed together or not at all. *)
Theorem search_ignores_case
    (toLowerCase : JS.jsstring → JS.jsstring) (posts : list Blog.post)
    (category s1 s2 : JS.jsstring) (p q : Blog.post) :
  toLowerCase s1 = toLowerCase s2 →
  p ∈ posts → q ∈ posts →
  Blog.category p = Blog.category q →
  toLowerCase (Blog.title p) = toLowerCase (Blog.title q) →
  toLowerCase (Blog.description p) = toLowerCase (Blog.description q) →
  toLowerCase <$> Blog.tags p = toLowerCase <$> Blog.tags q →
  Blog.pureFilterPosts toLowerCase posts category (Some s1)
  = Blog.pureFilterPosts toLowerCase posts category (Some s2) ∧
  (p ∈ Blog.pureFilterPosts toLowerCase posts category (Some s1) ↔
   q ∈ Blog.pureFilterPosts toLowerCase posts category (Some s1)).
Proof.
  intros Heq Hp Hq Hc Ht Hd Htags. split.
  - unfold Blog.pureFilterPosts. by rewrite !orEmpty_Some, Heq.
  - unfold Blog.pureFilterPosts.
    rewrite !list_elem_of_In, !filter_In, <- !list_elem_of_In.
    cbn zeta. rewrite Hc, Ht, Hd.
    rewrite <- (existsb_fmap toLowerCase
                  (λ tag, JS.includes tag (toLowerCase (Blog.orEmpty (Some s1))))
                  (Blog.tags p)).
    rewrite <- (existsb_fmap toLowerCase
                  (λ tag, JS.includes tag (toLowerCase (Blog.orEmpty (Some s1))))
                  (Blog.tags q)).
    rewrite Htags. tauto.
Qed.

Lemma search_ignores_case_witness :
  let shouting := Blog.Post 4 (JS.str "MERGE SORT EXPLAINED") (JS.str "DIVIDE AND CONQUER")
                    (JS.str "Sorting") [JS.str "SORTING"; JS.str "recursion"] false in
  let posts := samplePosts ++ [shouting] in
  Blog.pureFilterPosts Blog.toLowerCaseLatin posts (JS.str "All") (Some (JS.str "MeRGe"))
  = Blog.pureFilterPosts Blog.toLowerCaseLatin posts (JS.str "All")
      (Some (JS.str "merge")) ∧
  (Blog.Post 1 (JS.str "Merge Sort Explained") (JS.str "Divide and conquer")
     (JS.str "Sorting") [JS.str "sorting"; JS.str "Recursion"] true
   ∈ Blog.pureFilterPosts Blog.toLowerCaseLatin posts (JS.str "All")
       (Some (JS.str "MeRGe")) ↔
   shouting ∈ Blog.pureFilterPosts Blog.toLowerCaseLatin posts (JS.str "All")
                (Some (JS.str "MeRGe"))).
Proof.
  apply (search_ignores_case Blog.toLowerCaseLatin
           (samplePosts
            ++ [Blog.Post 4 (JS.str "MERGE SORT EXPLAINED") (JS.str "DIVIDE AND CONQUER")
                  (JS.str "Sorting") [JS.str "SORTING"; JS.str "recursion"] false])
           (JS.str "All") (JS.str "MeRGe") (JS.str "merge")); try reflexivity.
  - unfold samplePosts. apply elem_of_app. left. apply elem_of_cons. by left.
  - apply elem_of_app. right. apply elem_of_cons. by left.
Defined.

(** ** The Blog page over a lifetime of events *)

Section LifetimeFacts.
Import JS Blog BlogView.
Variable toLowerCase : jsstring → jsstring.
Variable blogPostsData : list post.

#[local] Abbreviation dispatch := (dispatch toLowerCase blogPostsData).
#[local] Abbreviation handler := (handler toLowerCase blogPostsData).
#[local] Abbreviation run := (run toLowerCase blogPostsData).

Ltac run_event :=
  unfold Blog.dispatch, Blog.handler, handleSearch, handleCategorySelect,
    trackPostInteraction, newsletterSubscribeClick, loadTimer,
    filterOperationsEffect, countFilterOperation,
    trackPerformance, bind, setSearchTerm, setSelectedCategory, setBlogPosts,
    setIsLoading, setPerformanceMetrics, logDebug;
  cbn [fst snd].

(** What one event does to each field of the state. *)
Lemma dispatch_fields st ev :
  let st' := dispatch st ev in
  searchOperations (performanceMetrics st')
  = searchOperations (performanceMetrics st) + bool_to_Z (isSearch ev) ∧
  interactions (performanceMetrics st')
  = interactions (performanceMetrics st) + bool_to_Z (isInteraction ev) ∧
  (filterOperations (performanceMetrics st')
   = filterOperations (performanceMetrics st) ∨
   isLoading st' = false ∧
   filterOperations (performanceMetrics st')
   = filterOperations (performanceMetrics st) + 1) ∧
  isLoading st' = isLoading st && negb (isLoadTimer ev) ∧
  blogPosts st' = (if isLoadTimer ev then blogPostsData else blogPosts st).
Proof.
  destruct st as [c s ps l [so fo pl ia] cs].
  destruct ev; run_event;
    match goal with |- context [depsChanged ?a ?b] =>
      destruct (depsChanged a b) end;
    destruct l; cbn; rewrite ?Z.add_0_r, ?andb_false_r;
    repeat split; auto.
Qed.

Lemma foldl_dispatch_counts evs st :
  let st' := foldl dispatch st evs in
  searchOperations (performanceMetrics st')
  = searchOperations (performanceMetrics st)
    + Z.of_nat (length (List.filter isSearch evs)) ∧
  interactions (performanceMetrics st')
  = interactions (performanceMetrics st)
    + Z.of_nat (length (List.filter isInteraction evs)) ∧
  filterOperations (performanceMetrics st')
  ≤ filterOperations (performanceMetrics st) + Z.of_nat (length evs) ∧
  isLoading st' = isLoading st && negb (existsb isLoadTimer evs) ∧
  blogPosts st' = (if existsb isLoadTimer evs then blogPostsData else blogPosts st) ∧
  (isLoading st' = true →
   filterOperations (performanceMetrics st') = filterOperations (performanceMetrics st)).
Proof.
  revert st. induction evs as [|ev evs IH]; intros st; cbn zeta.
  - simpl. rewrite andb_true_r. repeat split; lia.
  - cbn [foldl].
    destruct (IH (dispatch st ev)) as (Hs & Hi & Hf & Hl & Hp & Hz).
    destruct (dispatch_fields st ev) as (Hs1 & Hi1 & Hf1 & Hl1 & Hp1).
    rewrite Hs, Hi, Hl, Hp, Hs1, Hi1, Hl1, Hp1.
    cbn [List.filter existsb length].
    split; [destruct (isSearch ev); cbn; lia |].
    split; [destruct (isInteraction ev); cbn; lia |].
    split; [cbn [length]; lia |].
    split; [by destruct (isLoading st), (isLoadTimer ev) |].
    split; [by destruct (isLoadTimer ev), (existsb isLoadTimer evs) |].
    intros Hload. rewrite Hz by (by rewrite Hl, Hl1).
    destruct Hf1 as [-> | [Hfalse _]]; [done |].
    rewrite Hl1 in Hfalse. rewrite Hfalse in Hload. done.
Qed.

End LifetimeFacts.

(** X12: the counters count events exactly: after any sequence of events
    since mount, [searchOperations] is the number of search inputs and
    [interactions] is the number of search inputs, category clicks, post
    openings and clicks on the newsletter Subscribe button together (every
    event but the load timer). *)
Theorem counters_count_events
    (toLowerCase : JS.jsstring → JS.jsstring) (blogPostsData : list Blog.post)
    (evs : list Blog.event) :
  let m := Blog.performanceMetrics (Blog.run toLowerCase blogPostsData evs) in
  Blog.searchOperations m = Z.of_nat (length (List.filter BlogView.isSearch evs)) ∧
  Blog.interactions m = Z.of_nat (length (List.filter BlogView.isInteraction evs)).
Proof.
  destruct (foldl_dispatch_counts toLowerCase blogPostsData evs Blog.initialState)
    as (Hs & Hi & _).
  split; [exact Hs | exact Hi].
Qed.

(** X13: the page is loading until the load timer fires and never
    afterwards; while it is loading there are no posts, nothing is listed
    and no filter operation is counted; once loaded the posts are the
    imported ones; and [filterOperations] never exceeds the number of
    events. *)
Theorem loading_then_loaded
    (toLowerCase : JS.jsstring → JS.jsstring) (blogPostsData : list Blog.post)
    (evs : list Blog.event) :
  let st := Blog.run toLowerCase blogPostsData evs in
  Blog.isLoading st = negb (existsb BlogView.isLoadTimer evs) ∧
  (Blog.isLoading st = true →
     Blog.blogPosts st = [] ∧ Blog.filteredPosts toLowerCase st = [] ∧
     BlogView.featuredSectionShown st = false ∧
     Blog.filterOperations (Blog.performanceMetrics st) = 0) ∧
  (Blog.isLoading st = false → Blog.blogPosts st = blogPostsData) ∧
  Blog.filterOperations (Blog.performanceMetrics st) ≤ Z.of_nat (length evs).
Proof.
  destruct (foldl_dispatch_counts toLowerCase blogPostsData evs Blog.initialState)
    as (_ & _ & Hf & Hl & Hp & Hz).
  fold (Blog.run toLowerCase blogPostsData evs) in Hf, Hl, Hp, Hz.
  cbn zeta. cbn [Blog.initialState Blog.isLoading Blog.blogPosts
                 Blog.performanceMetrics Blog.filterOperations] in Hf, Hl, Hp, Hz.
  rewrite andb_true_l in Hl.
  split; [done | split; [| split]]; [| | lia].
  - intros Hload. rewrite Hload in Hl.
    destruct (existsb BlogView.isLoadTimer evs); [done |].
    unfold Blog.filteredPosts, BlogView.featuredSectionShown.
    rewrite Hp, Hload. auto.
  - intros Hload. rewrite Hload in Hl.
    by destruct (existsb BlogView.isLoadTimer evs).
Qed.

Lemma loading_then_loaded_witness :
  let st := Blog.run Blog.toLowerCaseLatin samplePosts
              [Blog.SearchInput (JS.str "merge"); Blog.LoadTimerFired 300] in
  Blog.blogPosts st = samplePosts.
Proof.
  destruct (loading_then_loaded Blog.toLowerCaseLatin samplePosts
              [Blog.SearchInput (JS.str "merge"); Blog.LoadTimerFired 300])
    as (_ & _ & Hloaded & _).
  apply Hloaded. reflexivity.
Defined.

(** X14: what a handler logs about the result list is what the page shows
    after the event: the [hasResults] flag of a search says whether the
    list rendered next is non-empty, and the [postCount] of a category
    selection is the length of the list rendered next. *)
Theorem logged_results_match_view
    (toLowerCase : JS.jsstring → JS.jsstring) (blogPostsData : list Blog.post)
    (st : Blog.state) :
  (∀ term,
     let st' := Blog.dispatch toLowerCase blogPostsData st (Blog.SearchInput term) in
     Blog.console st'
     = Blog.console st
       ++ [Blog.SearchPerformed term (Z.of_nat (length term))
             (0 <? Z.of_nat (length (Blog.filteredPosts toLowerCase st')));
           Blog.Performance (JS.str "Search Operation")]) ∧
  (∀ category,
     let st' := Blog.dispatch toLowerCase blogPostsData st
                  (Blog.CategoryClick category) in
     Blog.console st'
     = Blog.console st
       ++ [Blog.CategorySelected (Blog.selectedCategory st) category
             (Z.of_nat (length (Blog.filteredPosts toLowerCase st')))]).
Proof.
  destruct st as [c s ps l m cs]. split.
  - intros term.
    unfold Blog.dispatch, Blog.handler, Blog.handleSearch, Blog.filterOperationsEffect,
      Blog.countFilterOperation, Blog.trackPerformance, Blog.bind, Blog.setSearchTerm,
      Blog.setPerformanceMetrics, Blog.logDebug, Blog.filteredPosts.
    cbn [fst snd]. cbn zeta.
    match goal with |- context [Blog.depsChanged ?a ?b] =>
      destruct (Blog.depsChanged a b) end;
      destruct l; cbn; by rewrite <- app_assoc.
  - intros category.
    unfold Blog.dispatch, Blog.handler, Blog.handleCategorySelect,
      Blog.filterOperationsEffect, Blog.countFilterOperation, Blog.bind,
      Blog.setSelectedCategory, Blog.setPerformanceMetrics, Blog.logDebug,
      Blog.filteredPosts.
    cbn [fst snd]. cbn zeta.
    match goal with |- context [Blog.depsChanged ?a ?b] =>
      destruct (Blog.depsChanged a b) end;
      destruct l; by cbn.
Qed.

(** X15: opening a post always counts one interaction; the log line
    carries the title of a post with that id whenever the id belongs to a
    loaded post, and no title when it belongs to none. *)
Theorem post_interaction_logs_title
    (st : Blog.state) (postId : Z) (action : JS.jsstring) :
  let st' := snd (Blog.trackPostInteraction postId action st) in
  Blog.interactions (Blog.performanceMetrics st')
  = Blog.interactions (Blog.performanceMetrics st) + 1 ∧
  ((∃ p, p ∈ Blog.blogPosts st ∧ Blog.id p = postId) →
   ∃ q, q ∈ Blog.blogPosts st ∧ Blog.id q = postId ∧
        Blog.console st'
        = Blog.console st
          ++ [Blog.PostInteraction postId action (Some (Blog.title q))]) ∧
  ((∀ p, p ∈ Blog.blogPosts st → Blog.id p ≠ postId) →
   Blog.console st' = Blog.console st ++ [Blog.PostInteraction postId action None]).
Proof.
  cbn zeta. unfold Blog.trackPostInteraction, Blog.bind, Blog.logDebug,
    Blog.setPerformanceMetrics. cbn.
  split; [done | split].
  - intros (p & Hp & Hid).
    destruct (find_elem (λ q, Blog.id q =? postId) (Blog.blogPosts st) p)
      as (q & -> & Hq & Hqid); [done | by apply Z.eqb_eq |].
    exists q. apply Z.eqb_eq in Hqid. done.
  - intros Hnone.
    destruct (List.find _ _) as [q|] eqn:Hfind; [| done].
    apply find_some in Hfind as [Hq Hqid%Z.eqb_eq].
    apply list_elem_of_In in Hq. by destruct (Hnone q Hq).
Qed.

Lemma post_interaction_logs_title_witness :
  let st := Blog.run Blog.toLowerCaseLatin samplePosts [Blog.LoadTimerFired 300] in
  let st' := snd (Blog.trackPostInteraction 2 (JS.str "read_more") st) in
  ∃ q, q ∈ Blog.blogPosts st ∧ Blog.id q = 2 ∧
       Blog.console st'
       = Blog.console st
         ++ [Blog.PostInteraction 2 (JS.str "read_more") (Some (Blog.title q))].
Proof.
  destruct (post_interaction_logs_title
              (Blog.run Blog.toLowerCaseLatin samplePosts [Blog.LoadTimerFired 300])
              2 (JS.str "read_more")) as (_ & Hknown & _).
  apply Hknown.
  exists (Blog.Post 2 (JS.str "Graph Basics") (JS.str "Nodes and edges")
            (JS.str "Graphs") [JS.str "BFS"] false).
  split; [| reflexivity].
  change (Blog.blogPosts _) with samplePosts. unfold samplePosts.
  apply elem_of_cons. right. apply elem_of_cons. left. reflexivity.
Defined.

Section FeaturedFacts.
Import JS Blog BlogView.

Lemma existsb_filter_nonempty {A} (f : A → bool) (l : list A) :
  existsb f l = true ↔ List.filter f l ≠ [].
Proof.
  induction l as [|x l IH]; simpl; [done |].
  destruct (f x); simpl; [done |]. exact IH.
Qed.

End FeaturedFacts.

(** X16: the Featured Articles section is rendered exactly when the page
    has loaded and there is a featured post to put in it (it is never
    rendered empty), and searching, selecting a category or opening a post
    never changes the featured posts. *)
Theorem featured_section_never_empty
    (toLowerCase : JS.jsstring → JS.jsstring) (blogPostsData : list Blog.post)
    (st : Blog.state) (ev : Blog.event) :
  (BlogView.featuredSectionShown st = true ↔
   Blog.isLoading st = false ∧ BlogView.featuredPosts st ≠ []) ∧
  (BlogView.isLoadTimer ev = false →
   BlogView.featuredPosts (Blog.dispatch toLowerCase blogPostsData st ev)
   = BlogView.featuredPosts st).
Proof.
  split.
  - unfold BlogView.featuredSectionShown, BlogView.featuredPosts.
    rewrite andb_true_iff, negb_true_iff, existsb_filter_nonempty. done.
  - intros Hev. unfold BlogView.featuredPosts.
    destruct (dispatch_fields toLowerCase blogPostsData st ev) as (_ & _ & _ & _ & ->).
    by rewrite Hev.
Qed.

Lemma featured_section_never_empty_witness :
  let st := Blog.run Blog.toLowerCaseLatin samplePosts [Blog.LoadTimerFired 300] in
  BlogView.featuredPosts
    (Blog.dispatch Blog.toLowerCaseLatin samplePosts st
       (Blog.SearchInput (JS.str "graph")))
  = BlogView.featuredPosts st.
Proof.
  destruct (featured_section_never_empty Blog.toLowerCaseLatin samplePosts
              (Blog.run Blog.toLowerCaseLatin samplePosts [Blog.LoadTimerFired 300])
              (Blog.SearchInput (JS.str "graph"))) as [_ Hkeep].
  apply Hkeep. reflexivity.
Defined.

(** X17: [handleKeyDown] acts on Enter and Space only.  For these keys it
    cancels the default action, and on a category button it has the effect
    of a click on that button; any other key leaves the event and the
    state untouched; and from the search box no key changes the state. *)
Theorem handleKeyDown_activates_categories
    (toLowerCase : JS.jsstring → JS.jsstring) (event : BlogView.keyEvent)
    (action value : JS.jsstring) (st : Blog.state) :
  let activates :=
    BlogView.key event = JS.str "Enter" ∨ BlogView.key event = JS.str " " in
  let '(event', st') := BlogView.handleKeyDown toLowerCase event action value st in
  (activates → BlogView.defaultPrevented event' = true) ∧
  (activates → action = JS.str "category" →
     st' = snd (Blog.handleCategorySelect toLowerCase value st)) ∧
  (¬ activates → event' = event ∧ st' = st) ∧
  (action ≠ JS.str "category" → st' = st).
Proof.
  cbn zeta. unfold BlogView.handleKeyDown.
  destruct (decide (BlogView.key event = JS.str "Enter")) as [He | He];
    destruct (decide (BlogView.key event = JS.str " ")) as [Hs | Hs];
    destruct (decide (action = JS.str "category")) as [Ha | Ha];
    rewrite ?(bool_decide_eq_true_2 _ He), ?(bool_decide_eq_false_2 _ He),
      ?(bool_decide_eq_true_2 _ Hs), ?(bool_decide_eq_false_2 _ Hs),
      ?(bool_decide_eq_true_2 _ Ha), ?(bool_decide_eq_false_2 _ Ha);
    cbn; repeat split; try done; tauto.
Qed.

Lemma handleKeyDown_activates_categories_witness :
  let st := Blog.run Blog.toLowerCaseLatin samplePosts [Blog.LoadTimerFired 300] in
  let event := BlogView.KeyEvent (JS.str " ") false in
  snd (BlogView.handleKeyDown Blog.toLowerCaseLatin event (JS.str "search") [] st)
  = st.
Proof.
  pose proof (handleKeyDown_activates_categories Blog.toLowerCaseLatin
                (BlogView.KeyEvent (JS.str " ") false) (JS.str "search") []
                (Blog.run Blog.toLowerCaseLatin samplePosts [Blog.LoadTimerFired 300]))
    as H.
  cbn zeta in H. cbn zeta.
  destruct (BlogView.handleKeyDown _ _ _ _ _) as [event' st'].
  destruct H as (_ & _ & _ & Hsearch). apply Hsearch. discriminate.
Defined.

(** ** The signup form *)

Section SignupMoreFacts.
Import JS Signup SignupView.

Lemma isPasswordValid_all (fd : formData) :
  isPasswordValid fd = true ↔
  Signup.length (checkPasswordRules (password fd)) = true ∧
  ∀ k, flag k (checkPasswordRules (password fd)) = true.
Proof.
  unfold isPasswordValid. cbn [forallb]. rewrite !andb_true_iff. split.
  - intros (? & ? & ? & ? & ? & _). split; [done |]. by intros [].
  - intros [? Hk]. pose proof (Hk Uppercase). pose proof (Hk Lowercase).
    pose proof (Hk Digit). pose proof (Hk Special). done.
Qed.

Lemma trimStart_length (s : jsstring) :
  (List.length (trimStart s) ≤ List.length s)%nat.
Proof.
  induction s as [|c s IH]; simpl; [done |].
  destruct (isWhiteSpace c); simpl; lia.
Qed.

Lemma trimStart_fixed (s : jsstring) :
  (∀ c rest, s = c :: rest → isWhiteSpace c = false) → trimStart s = s.
Proof. destruct s as [|c s]; [done |]. intros H. simpl. by rewrite (H c s). Qed.

Lemma trimEnd_prefix (s : jsstring) :
  ∃ ws, s = trimEnd s ++ ws ∧ Forall (λ c, isWhiteSpace c = true) ws.
Proof.
  destruct (trimStart_strips (reverse s)) as (ws & Heq & Hws).
  exists (reverse ws). split.
  - unfold trimEnd. rewrite <- reverse_app, <- Heq. by rewrite reverse_involutive.
  - by apply Forall_reverse.
Qed.

Lemma trimEnd_last (s : jsstring) (c : code_unit) :
  last (trimEnd s) = Some c → isWhiteSpace c = false.
Proof.
  unfold trimEnd. rewrite last_reverse. intros Hhead.
  pose proof (trimStart_head (reverse s)) as H.
  destruct (trimStart (reverse s)) as [|c' t]; [done |].
  by injection Hhead as <-.
Qed.

Lemma trim_head (s : jsstring) (c : code_unit) (rest : jsstring) :
  trim s = c :: rest → isWhiteSpace c = false.
Proof.
  unfold trim. intros Heq.
  destruct (trimEnd_prefix (trimStart s)) as (ws & Hs & _).
  rewrite Heq in Hs. pose proof (trimStart_head s) as H.
  by rewrite Hs in H.
Qed.

Lemma find_filter_other (key key' : jsstring) (store : list (jsstring * jsstring)) :
  key' ≠ key →
  List.find (λ kv, bool_decide (kv.1 = key'))
    (List.filter (λ kv, negb (bool_decide (kv.1 = key))) store)
  = List.find (λ kv, bool_decide (kv.1 = key')) store.
Proof.
  intros Hne. induction store as [|[k v] store IH]; [done |]. simpl.
  case_bool_decide as Hk; simpl.
  - subst k. rewrite bool_decide_eq_false_2 by done. exact IH.
  - by rewrite IH.
Qed.

Lemma getItem_setItem (key key' value : jsstring) (v : view) :
  getItem key' (setItem key value v)
  = if bool_decide (key' = key) then Some value else getItem key' v.
Proof.
  unfold getItem, setItem. cbn [localStorage List.find fst].
  case_bool_decide as Hk.
  - subst key'. by rewrite bool_decide_eq_true_2.
  - rewrite bool_decide_eq_false_2 by congruence.
    by rewrite find_filter_other.
Qed.

Lemma formAfter_no_consent (evs : list inputEvent) :
  agreeToTerms (formAfter evs) = false.
Proof.
  unfold formAfter.
  assert (∀ fd, agreeToTerms fd = false →
                agreeToTerms (foldl onChange fd evs) = false) as Hinv.
  { induction evs as [|ev evs IH]; intros fd Hfd; simpl; [done |].
    apply IH. by destruct ev as [[] ?|?|?]. }
  by apply Hinv.
Qed.

End SignupMoreFacts.

(** X18: typing more never turns a satisfied rule red: when the characters
    of one password appear, in order, within another, every rule the first
    satisfies is satisfied by the second, and if the first is valid so is
    the second. *)
Theorem password_rules_monotone (fd fd' : Signup.formData) :
  Signup.password fd `sublist_of` Signup.password fd' →
  let r := Signup.checkPasswordRules (Signup.password fd) in
  let r' := Signup.checkPasswordRules (Signup.password fd') in
  (Signup.length r = true → Signup.length r' = true) ∧
  (∀ k, Signup.flag k r = true → Signup.flag k r' = true) ∧
  (SignupView.isPasswordValid fd = true → SignupView.isPasswordValid fd' = true).
Proof.
  intros Hsub r r'. subst r r'.
  assert ((Signup.length (Signup.checkPasswordRules (Signup.password fd)) = true →
           Signup.length (Signup.checkPasswordRules (Signup.password fd')) = true) ∧
          (∀ k, Signup.flag k (Signup.checkPasswordRules (Signup.password fd)) = true →
                Signup.flag k (Signup.checkPasswordRules (Signup.password fd')) = true))
    as [Hlen Hflag].
  { split.
    - cbn. intros H%Z.leb_le. apply Z.leb_le.
      pose proof (sublist_length _ _ Hsub). lia.
    - intros k. rewrite !flag_test, !test_present.
      intros (c & Hc & Hk). exists c. split; [| done].
      by eapply elem_of_sublist. }
  split; [done | split; [done |]].
  rewrite !isPasswordValid_all. intros [Hl Hk]. split; [by apply Hlen |].
  intros k. by apply Hflag.
Qed.

Lemma password_rules_monotone_witness :
  let fd := Signup.handlePasswordChange (JS.str "Abc1234!") Signup.initialFormData in
  let fd' := Signup.handlePasswordChange (JS.str "Abc1234!xyz") Signup.initialFormData in
  SignupView.isPasswordValid fd = true ∧ SignupView.isPasswordValid fd' = true.
Proof.
  destruct (password_rules_monotone
              (Signup.handlePasswordChange (JS.str "Abc1234!") Signup.initialFormData)
              (Signup.handlePasswordChange (JS.str "Abc1234!xyz")
                 Signup.initialFormData)) as (_ & _ & Hvalid).
  - change (JS.str "Abc1234!" `sublist_of` JS.str "Abc1234!" ++ JS.str "xyz").
    apply sublist_inserts_r. reflexivity.
  - split; [reflexivity | apply Hvalid; reflexivity].
Defined.

(** X19: the password rules are advisory.  Whenever the two passwords are
    equal and consent is given, [handleSubmit] makes exactly one call to
    the backend, whatever [isPasswordValid] says, with the e-mail and the
    password as stored and with the name "first last" trimmed: the name
    sent is the text [firstName + " " + lastName] without the whitespace
    run at its start and the one at its end, so it neither starts nor ends
    with whitespace. *)
Theorem handleSubmit_sends_trimmed_name
    (signup : Signup.authService) (v : Signup.view) :
  Signup.password (Signup.form v) = Signup.confirmPassword (Signup.form v) →
  Signup.agreeToTerms (Signup.form v) = true →
  let full := Signup.firstName (Signup.form v) ++ JS.str " "
              ++ Signup.lastName (Signup.form v) in
  ∃ name before after,
    Signup.signupCalls (Signup.handleSubmit signup v)
    = Signup.signupCalls v
      ++ [(name, Signup.email (Signup.form v), Signup.password (Signup.form v))] ∧
    name = JS.trim full ∧
    full = before ++ name ++ after ∧
    Forall (λ c, JS.isWhiteSpace c = true) before ∧
    Forall (λ c, JS.isWhiteSpace c = true) after ∧
    (∀ c rest, name = c :: rest → JS.isWhiteSpace c = false) ∧
    (∀ c, last name = Some c → JS.isWhiteSpace c = false).
Proof.
  intros Heq Hagree full.
  destruct (trimStart_strips full) as (before & Hfull & Hbefore).
  destruct (trimEnd_prefix (JS.trimStart full)) as (after & Hrest & Hafter).
  exists (JS.trim full), before, after.
  split; [by apply handleSubmit_sent |]. split; [done |].
  split; [unfold JS.trim; by rewrite <- Hrest |].
  split; [done |]. split; [done |]. split.
  - apply trim_head.
  - apply trimEnd_last.
Qed.

Lemma handleSubmit_sends_trimmed_name_witness :
  let v := {| Signup.form :=
                {| Signup.firstName := JS.str " Ada"; Signup.lastName := [];
                   Signup.email := JS.str "ada@example.org";
                   Signup.password := JS.str "abc";
                   Signup.confirmPassword := JS.str "abc";
                   Signup.agreeToTerms := true |};
              Signup.error := []; Signup.isLoading := false;
              Signup.localStorage := []; Signup.storageThrows := λ _ _, None;
              Signup.navigations := []; Signup.signupCalls := [];
              Signup.unhandledRejections := 0 |} in
  SignupView.isPasswordValid (Signup.form v) = false ∧
  Signup.signupCalls (Signup.handleSubmit emailInUse v)
  = [(JS.str "Ada", JS.str "ada@example.org", JS.str "abc")] ∧
  ∃ name before after,
    Signup.signupCalls (Signup.handleSubmit emailInUse v)
    = Signup.signupCalls v
      ++ [(name, Signup.email (Signup.form v), Signup.password (Signup.form v))] ∧
    name = JS.trim (JS.str " Ada" ++ JS.str " " ++ []) ∧
    JS.str " Ada" ++ JS.str " " ++ [] = before ++ name ++ after ∧
    Forall (λ c, JS.isWhiteSpace c = true) before ∧
    Forall (λ c, JS.isWhiteSpace c = true) after ∧
    (∀ c rest, name = c :: rest → JS.isWhiteSpace c = false) ∧
    (∀ c, last name = Some c → JS.isWhiteSpace c = false).
Proof.
  split; [reflexivity |]. split; [reflexivity |].
  apply (handleSubmit_sends_trimmed_name emailInUse); reflexivity.
Defined.

(** X20: when the backend resolves with a response object whose user
    [JSON.stringify] renders as a text and local storage accepts both
    writes, local storage afterwards holds that JSON text under "user" and
    the token under "token", every other key keeps its value, the page
    navigates to "/" once, any earlier error is cleared, loading ends and
    no exception is left unhandled. *)
Theorem handleSubmit_stores_session
    (signup : Signup.authService) (v : Signup.view)
    (response : Signup.signupResponse) (text : JS.jsstring) :
  Signup.password (Signup.form v) = Signup.confirmPassword (Signup.form v) →
  Signup.agreeToTerms (Signup.form v) = true →
  signup (JS.trim (Signup.firstName (Signup.form v) ++ JS.str " "
                   ++ Signup.lastName (Signup.form v)))
    (Signup.email (Signup.form v)) (Signup.password (Signup.form v))
  = Signup.Resolves response →
  Signup.user response = Signup.JsonText text →
  Signup.storageThrows v (JS.str "user") text = None →
  Signup.storageThrows v (JS.str "token") (Signup.token response) = None →
  let v' := Signup.handleSubmit signup v in
  SignupView.getItem (JS.str "user") v' = Some text ∧
  SignupView.getItem (JS.str "token") v' = Some (Signup.token response) ∧
  (∀ key, key ≠ JS.str "user" → key ≠ JS.str "token" →
          SignupView.getItem key v' = SignupView.getItem key v) ∧
  Signup.navigations v' = Signup.navigations v ++ [JS.str "/"] ∧
  Signup.error v' = [] ∧
  Signup.isLoading v' = false ∧
  Signup.unhandledRejections v' = Signup.unhandledRejections v.
Proof.
  intros Heq Hagree Hres Huser Hw1 Hw2 v'. subst v'.
  rewrite (handleSubmit_run signup v Heq Hagree), Hres.
  unfold Signup.tryBlock, Signup.trySetItem. rewrite Huser.
  cbn [Signup.storedText Signup.storageThrows Signup.callSignup Signup.setIsLoading
       Signup.setError].
  rewrite Hw1. cbn [Signup.storageThrows Signup.setItem Signup.callSignup Signup.setIsLoading
       Signup.setError]. rewrite Hw2.
  cbn [SignupView.finish].
  assert (∀ key w, SignupView.getItem key (Signup.setIsLoading false
                     (Signup.navigate (JS.str "/") w)) = SignupView.getItem key w)
    as Hframe by done.
  rewrite !Hframe, !getItem_setItem.
  split; [done | split; [done | split]].
  - intros key Hu Ht. rewrite Hframe, !getItem_setItem.
    by rewrite !bool_decide_eq_false_2.
  - done.
Qed.

Lemma handleSubmit_stores_session_witness :
  let v := Signup.setItem (JS.str "theme") (JS.str "dark")
             (sampleView (JS.str "Abc1234!") true) in
  let v' := Signup.handleSubmit accepts v in
  SignupView.getItem (JS.str "user") v'
  = Some (34%N :: JS.str "Ada Lovelace" ++ [34%N]) ∧
  SignupView.getItem (JS.str "token") v' = Some (JS.str "token-1") ∧
  (∀ key, key ≠ JS.str "user" → key ≠ JS.str "token" →
          SignupView.getItem key v' = SignupView.getItem key v) ∧
  Signup.navigations v' = Signup.navigations v ++ [JS.str "/"] ∧
  Signup.error v' = [] ∧
  Signup.isLoading v' = false ∧
  Signup.unhandledRejections v' = Signup.unhandledRejections v.
Proof.
  apply (handleSubmit_stores_session accepts
           (Signup.setItem (JS.str "theme") (JS.str "dark")
              (sampleView (JS.str "Abc1234!") true))
           {| Signup.user := Signup.JsonText (34%N :: JS.str "Ada Lovelace" ++ [34%N]);
              Signup.token := JS.str "token-1" |}
           (34%N :: JS.str "Ada Lovelace" ++ [34%N])); reflexivity.
Defined.

(** X28: whatever the backend does with a submission that is sent, loading
    ends.  When the signup resolves with [null] or [undefined], or
    [JSON.stringify] throws on the user, the thrown error's message (or
    the fallback text when it has none) is shown, nothing is stored and
    the page does not navigate.  When the signup rejects with [null] or
    [undefined], the [catch] block itself throws: no error is shown, the
    exception leaves the handler unhandled, and loading still ends. *)
Theorem handleSubmit_survives_failures
    (signup : Signup.authService) (v : Signup.view) :
  Signup.password (Signup.form v) = Signup.confirmPassword (Signup.form v) →
  Signup.agreeToTerms (Signup.form v) = true →
  let result :=
    signup (JS.trim (Signup.firstName (Signup.form v) ++ JS.str " "
                     ++ Signup.lastName (Signup.form v)))
      (Signup.email (Signup.form v)) (Signup.password (Signup.form v)) in
  let v' := Signup.handleSubmit signup v in
  let fallback := JS.str "Signup failed. Please try again." in
  Signup.isLoading v' = false ∧
  (∀ message,
     result = Signup.ResolvesNullish message ∨
     (∃ response, result = Signup.Resolves response ∧
                  Signup.user response = Signup.JsonThrows message) →
     Signup.error v' = Signup.messageOr message fallback ∧
     Signup.localStorage v' = Signup.localStorage v ∧
     Signup.navigations v' = Signup.navigations v ∧
     Signup.unhandledRejections v' = Signup.unhandledRejections v) ∧
  (result = Signup.RejectsNullish →
     Signup.error v' = [] ∧
     Signup.localStorage v' = Signup.localStorage v ∧
     Signup.navigations v' = Signup.navigations v ∧
     Signup.unhandledRejections v' = S (Signup.unhandledRejections v)).
Proof.
  intros Heq Hagree result v' fallback. subst result v' fallback.
  rewrite (handleSubmit_run signup v Heq Hagree).
  split; [| split].
  - by destruct (Signup.tryBlock _ _) as [w | [m|] w].
  - intros message [-> | (response & -> & Huser)].
    + done.
    + unfold Signup.tryBlock. by rewrite Huser.
  - by intros ->.
Qed.

Lemma handleSubmit_survives_failures_witness :
  let v := sampleView (JS.str "Abc1234!") true in
  let v' := Signup.handleSubmit (λ _ _ _, Signup.RejectsNullish) v in
  Signup.isLoading v' = false ∧ Signup.error v' = [] ∧
  Signup.unhandledRejections v' = 1%nat.
Proof.
  destruct (handleSubmit_survives_failures (λ _ _ _, Signup.RejectsNullish)
              (sampleView (JS.str "Abc1234!") true)) as (Hloading & _ & Hnull);
    [reflexivity | reflexivity |].
  destruct Hnull as (Herr & _ & _ & Hun); [reflexivity |].
  split; [exact Hloading | split; [exact Herr | exact Hun]].
Defined.

(** X29: a write that local storage refuses ends the submission without
    navigation, showing the exception's message or the fallback text.  If
    the "user" write is refused nothing is stored; if only the "token"
    write is refused, the user stays stored under "user" while the token
    entry keeps its old value. *)
Theorem handleSubmit_refused_write
    (signup : Signup.authService) (v : Signup.view)
    (response : Signup.signupResponse) (text : JS.jsstring)
    (message : option JS.jsstring) :
  Signup.password (Signup.form v) = Signup.confirmPassword (Signup.form v) →
  Signup.agreeToTerms (Signup.form v) = true →
  signup (JS.trim (Signup.firstName (Signup.form v) ++ JS.str " "
                   ++ Signup.lastName (Signup.form v)))
    (Signup.email (Signup.form v)) (Signup.password (Signup.form v))
  = Signup.Resolves response →
  Signup.user response = Signup.JsonText text →
  let v' := Signup.handleSubmit signup v in
  let shown :=
    Signup.error v'
    = Signup.messageOr message (JS.str "Signup failed. Please try again.") ∧
    Signup.navigations v' = Signup.navigations v ∧
    Signup.isLoading v' = false in
  (Signup.storageThrows v (JS.str "user") text = Some message →
   shown ∧ Signup.localStorage v' = Signup.localStorage v) ∧
  (Signup.storageThrows v (JS.str "user") text = None →
   Signup.storageThrows v (JS.str "token") (Signup.token response) = Some message →
   shown ∧
   SignupView.getItem (JS.str "user") v' = Some text ∧
   SignupView.getItem (JS.str "token") v' = SignupView.getItem (JS.str "token") v).
Proof.
  intros Heq Hagree Hres Huser v' shown. subst v' shown.
  rewrite (handleSubmit_run signup v Heq Hagree), Hres.
  unfold Signup.tryBlock, Signup.trySetItem. rewrite Huser.
  cbn [Signup.storedText Signup.storageThrows Signup.callSignup Signup.setIsLoading
       Signup.setError].
  split.
  - intros ->. done.
  - intros ->. cbn [Signup.storageThrows Signup.setItem Signup.callSignup Signup.setIsLoading
       Signup.setError]. intros ->.
    cbn [Signup.catchBlock SignupView.finish].
    split; [done |].
    assert (∀ key m w, SignupView.getItem key (Signup.setIsLoading false
                       (Signup.setError m w)) = SignupView.getItem key w)
      as Hframe by done.
    rewrite !Hframe, !getItem_setItem.
    split; [done |]. by rewrite bool_decide_eq_false_2.
Qed.

Lemma handleSubmit_refused_write_witness :
  let quota := Some (Some (JS.str "The quota has been exceeded.")) in
  let v := {| Signup.form := Signup.form (sampleView (JS.str "Abc1234!") true);
              Signup.error := []; Signup.isLoading := false;
              Signup.localStorage := [];
              Signup.storageThrows :=
                λ key _, if bool_decide (key = JS.str "token") then quota else None;
              Signup.navigations := []; Signup.signupCalls := [];
              Signup.unhandledRejections := 0 |} in
  let v' := Signup.handleSubmit accepts v in
  Signup.error v' = JS.str "The quota has been exceeded." ∧
  Signup.navigations v' = [] ∧
  SignupView.getItem (JS.str "user") v'
  = Some (34%N :: JS.str "Ada Lovelace" ++ [34%N]) ∧
  SignupView.getItem (JS.str "token") v' = None.
Proof.
  destruct (handleSubmit_refused_write accepts
    {| Signup.form := Signup.form (sampleView (JS.str "Abc1234!") true);
       Signup.error := []; Signup.isLoading := false;
       Signup.localStorage := [];
       Signup.storageThrows :=
         λ key _, if bool_decide (key = JS.str "token")
                  then Some (Some (JS.str "The quota has been exceeded.")) else None;
       Signup.navigations := []; Signup.signupCalls := [];
       Signup.unhandledRejections := 0 |}
    {| Signup.user := Signup.JsonText (34%N :: JS.str "Ada Lovelace" ++ [34%N]);
       Signup.token := JS.str "token-1" |}
    (34%N :: JS.str "Ada Lovelace" ++ [34%N])
    (Some (JS.str "The quota has been exceeded.")))
    as [_ Htoken]; try reflexivity.
  destruct Htoken as ((Herr & Hnav & _) & Huser & Htok); try reflexivity.
  split; [exact Herr | split; [exact Hnav | split; [exact Huser | exact Htok]]].
Defined.

(** X21: only the password field strips leading whitespace.  When the same
    text is typed into the password and the confirmation field, the two
    stored values are equal exactly when the text does not start with a
    space. *)
Theorem same_text_matches_unless_leading_space
    (value : JS.jsstring) (fd : Signup.formData) :
  let fd' := Signup.handleConfirmPasswordChange value
               (Signup.handlePasswordChange value fd) in
  Signup.password fd' = Signup.confirmPassword fd' ↔
  JS.startsWith value (JS.str " ") = false.
Proof.
  cbn zeta. unfold Signup.handleConfirmPasswordChange, Signup.handlePasswordChange.
  cbn [Signup.password Signup.confirmPassword].
  destruct (JS.startsWith value (JS.str " ")) eqn:Hs; [| done].
  split; [| done]. intros Heq.
  apply startsWith_space in Hs as [rest ->].
  pose proof (trimStart_length rest) as Hlen.
  change (JS.trimStart (32%N :: rest)) with (JS.trimStart rest) in Heq.
  rewrite Heq in Hlen. simpl in Hlen. lia.
Qed.

(** X22: the "Passwords match" indicator and the check made on submit
    agree whenever the indicator is visible: if [doPasswordsMatch] holds,
    a submission with consent is sent; if the confirmation is non-empty
    and [doPasswordsMatch] fails, the submission is refused with
    "Passwords don't match!" and nothing is sent. *)
Theorem match_indicator_agrees_with_submit
    (signup : Signup.authService) (v : Signup.view) :
  let fd := Signup.form v in
  let v' := Signup.handleSubmit signup v in
  (SignupView.doPasswordsMatch fd = true →
   Signup.agreeToTerms fd = true →
   length (Signup.signupCalls v') = S (length (Signup.signupCalls v))) ∧
  (Signup.confirmPassword fd ≠ [] →
   SignupView.doPasswordsMatch fd = false →
   Signup.error v' = JS.str "Passwords don't match!" ∧
   Signup.signupCalls v' = Signup.signupCalls v).
Proof.
  cbn zeta. unfold SignupView.doPasswordsMatch. split.
  - intros Hm Hagree.
    destruct (Signup.confirmPassword (Signup.form v)) eqn:Hc; [done |].
    apply bool_decide_eq_true in Hm.
    rewrite handleSubmit_sent by (by rewrite ?Hc).
    rewrite length_app. simpl. lia.
  - intros Hne Hm.
    destruct (Signup.confirmPassword (Signup.form v)) eqn:Hc; [done |].
    apply bool_decide_eq_false in Hm.
    rewrite handleSubmit_blocked by (left; by rewrite Hc).
    rewrite Hc. by rewrite bool_decide_eq_false_2.
Qed.

Lemma match_indicator_agrees_with_submit_witness :
  let v := sampleView (JS.str "Abc1234?") true in
  Signup.error (Signup.handleSubmit accepts v) = JS.str "Passwords don't match!" ∧
  Signup.signupCalls (Signup.handleSubmit accepts v) = Signup.signupCalls v.
Proof.
  destruct (match_indicator_agrees_with_submit accepts
              (sampleView (JS.str "Abc1234?") true)) as [_ Hrefused].
  apply Hrefused; [discriminate | reflexivity].
Defined.

(** X23: no input of the form sets the consent flag, so whatever is typed
    into the form, [agreeToTerms] is still unset and a submission is
    refused: no call reaches the backend, nothing is stored and the page
    does not navigate. *)
Theorem typed_form_is_never_sent
    (signup : Signup.authService) (evs : list Signup.inputEvent) (v : Signup.view) :
  Signup.form v = Signup.formAfter evs →
  let v' := Signup.handleSubmit signup v in
  Signup.agreeToTerms (Signup.form v) = false ∧
  Signup.signupCalls v' = Signup.signupCalls v ∧
  Signup.localStorage v' = Signup.localStorage v ∧
  Signup.navigations v' = Signup.navigations v ∧
  (Signup.error v' = JS.str "Passwords don't match!" ∨
   Signup.error v' = JS.str "Please agree to the terms and conditions").
Proof.
  intros Hform. cbn zeta.
  assert (Signup.agreeToTerms (Signup.form v) = false) as Hagree
    by (rewrite Hform; apply formAfter_no_consent).
  rewrite handleSubmit_blocked by (by right).
  split; [done |]. case_bool_decide; cbn; auto.
Qed.

Lemma typed_form_is_never_sent_witness :
  let evs := [Signup.TextChange Signup.FirstNameInput (JS.str "Ada");
              Signup.TextChange Signup.EmailInput (JS.str "ada@example.org");
              Signup.PasswordChange (JS.str "Abc1234!");
              Signup.ConfirmPasswordChange (JS.str "Abc1234!")] in
  let v := {| Signup.form := Signup.formAfter evs; Signup.error := [];
              Signup.isLoading := false; Signup.localStorage := [];
              Signup.storageThrows := λ _ _, None;
              Signup.navigations := []; Signup.signupCalls := [];
              Signup.unhandledRejections := 0 |} in
  Signup.signupCalls (Signup.handleSubmit accepts v) = [] ∧
  Signup.error (Signup.handleSubmit accepts v)
  = JS.str "Please agree to the terms and conditions".
Proof.
  destruct (typed_form_is_never_sent accepts
              [Signup.TextChange Signup.FirstNameInput (JS.str "Ada");
               Signup.TextChange Signup.EmailInput (JS.str "ada@example.org");
               Signup.PasswordChange (JS.str "Abc1234!");
               Signup.ConfirmPasswordChange (JS.str "Abc1234!")]
              {| Signup.form :=
                   Signup.formAfter
                     [Signup.TextChange Signup.FirstNameInput (JS.str "Ada");
                      Signup.TextChange Signup.EmailInput (JS.str "ada@example.org");
                      Signup.PasswordChange (JS.str "Abc1234!");
                      Signup.ConfirmPasswordChange (JS.str "Abc1234!")];
                 Signup.error := []; Signup.isLoading := false;
                 Signup.localStorage := []; Signup.storageThrows := λ _ _, None;
                 Signup.navigations := []; Signup.signupCalls := [];
                 Signup.unhandledRejections := 0 |}) as (_ & Hcalls & _).
  - reflexivity.
  - split; [exact Hcalls | reflexivity].
Defined.

(** X24: the normalisation of the password input is idempotent: feeding
    the stored password back through [handlePasswordChange] stores the
    same password, and no other field of the form is touched. *)
Theorem handlePasswordChange_idempotent
    (value : JS.jsstring) (fd : Signup.formData) :
  let fd' := Signup.handlePasswordChange value fd in
  Signup.handlePasswordChange (Signup.password fd') fd' = fd' ∧
  Signup.firstName fd' = Signup.firstName fd ∧
  Signup.lastName fd' = Signup.lastName fd ∧
  Signup.email fd' = Signup.email fd ∧
  Signup.confirmPassword fd' = Signup.confirmPassword fd ∧
  Signup.agreeToTerms fd' = Signup.agreeToTerms fd.
Proof.
  cbn zeta. split; [| done].
  pose proof (handlePasswordChange_no_space value fd) as Hns.
  unfold Signup.handlePasswordChange in *. cbn in *. by rewrite Hns.
Qed.

(** ** Google sign-up *)

Lemma google_alerts_differ :
  JS.str "Signed up successfully with Google!"
  ≠ JS.str "Google signup failed. Please try again.".
Proof. vm_compute. discriminate. Qed.

(** X25: the Google success handler shows exactly one alert whatever
    happens; the backend is called, once and with the credential received,
    exactly when the credential decodes; and the success alert is shown
    exactly when the credential decodes and the backend accepts it. *)
Theorem handleGoogleSuccess_alerts_once
    (jwtDecode googleLogin : JS.jsstring → option JS.jsstring)
    (credential : JS.jsstring) (p : SignupView.page) :
  let p' := SignupView.handleGoogleSuccess jwtDecode googleLogin credential p in
  let accepted := is_Some (jwtDecode credential) ∧ is_Some (googleLogin credential) in
  (∃ msg, SignupView.alerts p' = SignupView.alerts p ++ [msg] ∧
          (msg = JS.str "Signed up successfully with Google!" ↔ accepted) ∧
          (msg = JS.str "Google signup failed. Please try again." ↔ ¬ accepted)) ∧
  SignupView.googleLoginCalls p'
  = SignupView.googleLoginCalls p
    ++ match jwtDecode credential with Some _ => [credential] | None => [] end.
Proof.
  cbn zeta. unfold SignupView.handleGoogleSuccess.
  pose proof google_alerts_differ as Hdiff.
  destruct (jwtDecode credential) as [decoded|];
    [destruct (googleLogin credential) as [response|] |];
    cbn [SignupView.alerts SignupView.googleLoginCalls SignupView.alert
         SignupView.consoleWrite SignupView.callGoogleLogin].
  - split; [| done]. eexists. split; [done |]. split.
    + split; [intros _; split; by eexists | done].
    + split; [intros Heq; by destruct Hdiff |].
      intros Hn. destruct Hn. split; by eexists.
  - split; [| done]. eexists. split; [done |]. split.
    + split; [intros Heq; symmetry in Heq; by destruct Hdiff |].
      intros [_ [? ?]]. done.
    + split; [| done]. intros _ [_ [? ?]]. done.
  - split; [| by rewrite app_nil_r]. eexists. split; [done |]. split.
    + split; [intros Heq; symmetry in Heq; by destruct Hdiff |].
      intros [[? ?] _]. done.
    + split; [| done]. intros _ [[? ?] _]. done.
Qed.

(** ** Repository statistics *)

Section StatsMoreFacts.
Import JS Contribute ContributeView.

Lemma or_zero_displayable (v : jsval) : displayable (or v (Num 0)) = true.
Proof. unfold or. destruct v as [| | [] | n | | []]; try done. cbn. by destruct (n =? 0). Qed.

End StatsMoreFacts.

(** X26: the counters on the page never degrade to a blank or to NaN: if
    stars, forks and issues each hold a number or another truthy value
    before the fetch, they do so after it, whatever the outcome; in
    particular this holds for the fetch made at mount. *)
Theorem fetched_counters_stay_displayable
    (outcome : Contribute.fetchOutcome) (st : Contribute.state) :
  let shown (s : Contribute.stats) :=
    [Contribute.stars s; Contribute.forks s; Contribute.issues s] in
  Forall (λ v, ContributeView.displayable v = true) (shown (Contribute.repoStats st)) →
  ∃ st', Contribute.fetchRepoStats outcome st = Contribute.Normal st' ∧
         Forall (λ v, ContributeView.displayable v = true)
           (shown (Contribute.repoStats st')).
Proof.
  intros shown Hst. subst shown.
  destruct outcome as [|[] [|[data|]]]; cbn; eexists; (split; [done |]); try done.
  cbn. repeat constructor; apply or_zero_displayable.
Qed.

Lemma fetched_counters_stay_displayable_witness :
  let data := Contribute.RepoData (Contribute.Num 42) Contribute.NaN
                (Contribute.Str []) in
  ∃ st', Contribute.fetchRepoStats
           (Contribute.Responds true (Contribute.JsonYields (Some data)))
           Contribute.initialState = Contribute.Normal st' ∧
         Forall (λ v, ContributeView.displayable v = true)
           [Contribute.stars (Contribute.repoStats st');
            Contribute.forks (Contribute.repoStats st');
            Contribute.issues (Contribute.repoStats st')].
Proof.
  apply (fetched_counters_stay_displayable
           (Contribute.Responds true (Contribute.JsonYields (Some
              (Contribute.RepoData (Contribute.Num 42) Contribute.NaN
                 (Contribute.Str [])))))
           Contribute.initialState).
  repeat constructor.
Defined.

(** X27: an error line is written to the console exactly when the [try]
    block throws (the fetch rejects, the body cannot be parsed, or the body
    is null); a response that is not OK is passed over in silence: nothing
    at all is logged for it. *)
Theorem error_logged_iff_thrown
    (outcome : Contribute.fetchOutcome) (st : Contribute.state) :
  ∃ st' lines,
    Contribute.fetchRepoStats outcome st = Contribute.Normal st' ∧
    Contribute.console st' = Contribute.console st ++ lines ∧
    (Contribute.ErrorFetchingRepoStats ∈ lines ↔
     ContributeView.throws outcome = true) ∧
    match outcome with
    | Contribute.Responds false _ => lines = []
    | _ => True
    end.
Proof.
  destruct st as [s c].
  destruct outcome as [|[] [|[data|]]]; cbn;
    unfold Contribute.catchBlock, Contribute.consoleWrite; cbn.
  - exists {| Contribute.repoStats := s;
              Contribute.console := c ++ [Contribute.ErrorFetchingRepoStats] |},
           [Contribute.ErrorFetchingRepoStats].
    repeat split; try done. intros _. apply elem_of_cons. by left.
  - exists {| Contribute.repoStats := s;
              Contribute.console := c ++ [Contribute.ErrorFetchingRepoStats] |},
           [Contribute.ErrorFetchingRepoStats].
    repeat split; try done. intros _. apply elem_of_cons. by left.
  - eexists _, [Contribute.Log (Some data)]. repeat split; try done.
    intros [H | H%elem_of_nil]%elem_of_cons; done.
  - eexists _, [Contribute.Log None; Contribute.ErrorFetchingRepoStats].
    split; [done |]. split; [by rewrite <- app_assoc |].
    repeat split; try done. intros _. apply elem_of_cons. right.
    apply elem_of_cons. by left.
  - eexists _, []. rewrite app_nil_r. repeat split; try done.
    by intros H%elem_of_nil.
  - eexists _, []. rewrite app_nil_r. repeat split; try done.
    by intros H%elem_of_nil.
  - eexists _, []. rewrite app_nil_r. repeat split; try done.
    by intros H%elem_of_nil.
Qed.
